(** * multigrep (mgp): a shallow embedding of the scanning engine

    The development follows the three source files of the repository:

    - [Args]   : the command line ([Flags], [GetExcludedDirs], [ParseArgs]);
    - [Mgp]    : the engine of mgp.go ([printHandler], [handler],
                 [processPath], [handlePathError], [setSignalHandlers], [Run]);
    - [Legacy] : the older single-file program (its own [handler],
                 [processPath], [handlePathError] and [main]).

    Go library functions the program calls (flag, strings, bufio, regexp,
    path/filepath, os) are modelled in [Go]; those whose behaviour the
    properties do not depend on are taken as parameters of the sections and
    instantiated only to evaluate the model on concrete inputs. *)

From Stdlib Require Import String Ascii List ZArith Bool Arith Lia.
Import ListNotations.

Set Implicit Arguments.
Set Warnings "-register-all".

Local Open Scope string_scope.

(* ================================================================== *)
(** * Go library models *)
(* ================================================================== *)

Module Go.

(** ** Machine integers: Go's [int] and [int64] on a 64-bit platform *)

Definition wrap64 (z : Z) : Z := ((z + 2 ^ 63) mod 2 ^ 64 - 2 ^ 63)%Z.

Definition mul64 (a b : Z) : Z := wrap64 (a * b).

(** ** Errors *)

Inductive Errno := ENOENT | EACCES | EIO | ENOTDIR | ELOOP.

Definition errnoText (e : Errno) : string :=
  match e with
  | ENOENT => "no such file or directory"
  | EACCES => "permission denied"
  | EIO => "input/output error"
  | ENOTDIR => "not a directory"
  | ELOOP => "too many levels of symbolic links"
  end.

(** The [error] values the program meets: the sentinels [io.EOF] and
    [filepath.SkipDir] (compared by identity), an [*fs.PathError] and the
    result of [errors.New]. *)
Inductive error :=
| io_EOF
| filepath_SkipDir
| PathError (op path : string) (errno : Errno)
| errorString (s : string).

(** [err.Error()] *)
Definition Error (e : error) : string :=
  match e with
  | io_EOF => "EOF"
  | filepath_SkipDir => "skip this directory"
  | PathError op path errno => op ++ " " ++ path ++ ": " ++ errnoText errno
  | errorString s => s
  end.

(** [os.IsNotExist(err)] *)
Definition os_IsNotExist (e : error) : bool :=
  match e with
  | PathError _ _ ENOENT => true
  | _ => false
  end.

(** [err == io.EOF] and [err == filepath.SkipDir] *)
Definition is_EOF (e : error) : bool :=
  match e with io_EOF => true | _ => false end.
Definition is_SkipDir (e : error) : bool :=
  match e with filepath_SkipDir => true | _ => false end.

(** ** [os.FileMode] and [os.FileInfo] *)

Definition FileMode := Z.

Definition ModeDir : FileMode := Z.shiftl 1 31.
Definition ModeSymlink : FileMode := Z.shiftl 1 27.
Definition ModeDevice : FileMode := Z.shiftl 1 26.
Definition ModeNamedPipe : FileMode := Z.shiftl 1 25.
Definition ModeSocket : FileMode := Z.shiftl 1 24.
Definition ModeCharDevice : FileMode := Z.shiftl 1 21.
Definition ModeIrregular : FileMode := Z.shiftl 1 19.

Definition ModeType : FileMode :=
  Z.lor ModeDir (Z.lor ModeSymlink (Z.lor ModeNamedPipe (Z.lor ModeSocket
    (Z.lor ModeDevice (Z.lor ModeCharDevice ModeIrregular))))).

(** [m.IsDir()] and [m.IsRegular()] *)
Definition Mode_IsDir (m : FileMode) : bool := negb (Z.land m ModeDir =? 0)%Z.
Definition Mode_IsRegular (m : FileMode) : bool := (Z.land m ModeType =? 0)%Z.

Record FileInfo := mkFileInfo {
  Name : string;
  Size : Z;
  Mode : FileMode
}.

(** [info.IsDir()] abbreviates [info.Mode().IsDir()]. *)
Definition IsDir (fi : FileInfo) : bool := Mode_IsDir (Mode fi).

(** ** [strings] *)

Fixpoint HasPrefix (s prefix : string) : bool :=
  match prefix, s with
  | EmptyString, _ => true
  | String p ps, String c cs => Ascii.eqb c p && HasPrefix cs ps
  | String _ _, EmptyString => false
  end.

Fixpoint revstr (acc s : string) : string :=
  match s with
  | EmptyString => acc
  | String c s' => revstr (String c acc) s'
  end.

(** [splitFrom sep s skip cur]: [cur] holds, reversed, the bytes of the field
    being read; [skip] counts the bytes of an occurrence of [sep] that are
    still to be dropped. *)
Fixpoint splitFrom (sep s : string) (skip : nat) (cur : string) : list string :=
  match s with
  | EmptyString => [revstr EmptyString cur]
  | String c s' =>
      match skip with
      | S k => splitFrom sep s' k cur
      | O =>
          if HasPrefix s sep
          then revstr EmptyString cur :: splitFrom sep s' (String.length sep - 1) EmptyString
          else splitFrom sep s' 0 (String c cur)
      end
  end.

Definition explode (s : string) : list string :=
  map (fun c => String c EmptyString) (list_ascii_of_string s).

(** [strings.Split(s, sep)]: the fields of [s] between the occurrences of
    [sep], found from left to right; with an empty [sep] the string is cut
    after every character (bytes here, the program only passes [","]). *)
Definition Split (s sep : string) : list string :=
  match sep with
  | EmptyString => explode s
  | _ => splitFrom sep s 0 EmptyString
  end.

(** [strings.Join(elems, sep)] *)
Definition Join (elems : list string) (sep : string) : string :=
  String.concat sep elems.

Fixpoint Contains_byte (c : ascii) (s : string) : bool :=
  match s with
  | EmptyString => false
  | String d s' => Ascii.eqb d c || Contains_byte c s'
  end.

(** [strings.Count(s, sep)] for a separator of one byte. *)
Fixpoint CountByte (c : ascii) (s : string) : nat :=
  match s with
  | EmptyString => 0
  | String d s' => (if Ascii.eqb d c then 1 else 0) + CountByte c s'
  end.

(** [strings.Contains(s, substr)] *)
Fixpoint Contains (s substr : string) : bool :=
  HasPrefix s substr ||
  match s with
  | EmptyString => false
  | String _ s' => Contains s' substr
  end.

(** ** [strconv.ParseBool] *)

Definition ParseBool (s : string) : option bool :=
  if existsb (String.eqb s) ["1"; "t"; "T"; "TRUE"; "true"; "True"] then Some true
  else if existsb (String.eqb s) ["0"; "f"; "F"; "FALSE"; "false"; "False"] then Some false
  else None.

(** ** [bufio.Reader] over an opened file

    [data] is what is still unread; [fail] is the error [Read] returns once
    the data has run out: [io_EOF] for a file read to its end, any other
    error for a file whose reads fail. *)
Record File := mkFile {
  data : string;
  fail : error
}.

Fixpoint cutLine (delim : ascii) (s : string) : option (string * string) :=
  match s with
  | EmptyString => None
  | String c s' =>
      if Ascii.eqb c delim then Some (String c EmptyString, s')
      else match cutLine delim s' with
           | Some (l, rest) => Some (String c l, rest)
           | None => None
           end
  end.

(** [bufread.ReadBytes(delim)]: the bytes up to and including the first
    [delim]; when an error comes first, the bytes read before it together
    with the error. *)
Definition ReadBytes (delim : ascii) (f : File) : string * option error * File :=
  match cutLine delim (data f) with
  | Some (l, rest) => (l, None, {| data := rest; fail := fail f |})
  | None => (data f, Some (fail f), {| data := EmptyString; fail := fail f |})
  end.

Definition newline : ascii := ascii_of_nat 10.

(** The lines of a text: those that end in a newline, each with its
    newline, and what follows the last newline. *)
Fixpoint linesOf (s : string) : list string * string :=
  match s with
  | EmptyString => ([], EmptyString)
  | String c s' =>
      let (ls, tl) := linesOf s' in
      if Ascii.eqb c newline then (String c EmptyString :: ls, tl)
      else match ls with
           | [] => ([], String c tl)
           | l :: ls' => (String c l :: ls', tl)
           end
  end.

(** The text whose lines are [ls], each followed by a newline. *)
Fixpoint unlines (ls : list string) : string :=
  match ls with
  | [] => EmptyString
  | l :: ls' => l ++ String newline (unlines ls')
  end.

(** ** [*regexp.Regexp]

    A compiled expression is used only through [Match]; the pointer the
    program holds may be nil. *)
Definition Regexp := string -> bool.

(** ** Outcome of a computation that may end the process *)
Inductive Outcome (A : Type) :=
| Returns (a : A)
| Exits (code : Z) (out : list string)
| Panics (reason : string).

Arguments Exits {A} code out.
Arguments Panics {A} reason.

(** ** Package [flag]

    A flag set over a block of variables [V]: every registered flag knows
    how to store a parsed value in [V]. *)
Section Flag.
Variable V : Type.
Variable ParseInt : string -> option Z.

Inductive Setter :=
| BoolSetter (set : bool -> V -> V)
| IntSetter (set : Z -> V -> V)
| StringSetter (set : string -> V -> V).

Definition FlagSet := list (string * Setter).

Fixpoint formal (fs : FlagSet) (name : string) : option Setter :=
  match fs with
  | [] => None
  | (n, st) :: fs' => if String.eqb n name then Some st else formal fs' name
  end.

(** [flag.BoolVar(p, name, value, usage)] and its siblings: the variable
    receives the default at once and the flag is registered. *)
Definition BoolVar (set : bool -> V -> V) (name : string) (value : bool)
    (st : V * FlagSet) : V * FlagSet :=
  (set value (fst st), (snd st ++ [(name, BoolSetter set)])%list).
Definition IntVar (set : Z -> V -> V) (name : string) (value : Z)
    (st : V * FlagSet) : V * FlagSet :=
  (set value (fst st), (snd st ++ [(name, IntSetter set)])%list).
Definition StringVar (set : string -> V -> V) (name : string) (value : string)
    (st : V * FlagSet) : V * FlagSet :=
  (set value (fst st), (snd st ++ [(name, StringSetter set)])%list).

(** [name=value]: the first ['='] that is not the first byte. *)
Fixpoint cutEq (s : string) : option (string * string) :=
  match s with
  | EmptyString => None
  | String c s' =>
      if Ascii.eqb c "="%char then Some (EmptyString, s')
      else match cutEq s' with
           | Some (n, v) => Some (String c n, v)
           | None => None
           end
  end.

Definition splitNameValue (name : string) : string * option string :=
  match name with
  | EmptyString => (name, None)
  | String c rest =>
      match cutEq rest with
      | Some (n, v) => (String c n, Some v)
      | None => (name, None)
      end
  end.

Inductive ParseStep :=
| Seen (args : list string) (v : V)      (* a flag was consumed *)
| Finished (args : list string)          (* first non-flag argument, or "--" *)
| BadFlag                                (* parse error *)
| ErrHelp.                               (* -h or -help, not defined *)

(** [FlagSet.parseOne] *)
Definition parseOne (fs : FlagSet) (args : list string) (v : V) : ParseStep :=
  match args with
  | [] => Finished []
  | s :: args' =>
      match s with
      | String c0 (String c1 r1 as s1) =>
          if negb (Ascii.eqb c0 "-"%char) then Finished args
          else if Ascii.eqb c1 "-"%char && (String.length s =? 2)%nat then Finished args'
          else
            let name := if Ascii.eqb c1 "-"%char then r1 else s1 in
            match name with
            | EmptyString => BadFlag
            | String n0 _ =>
                if Ascii.eqb n0 "-"%char || Ascii.eqb n0 "="%char then BadFlag
                else
                  let (nm, value) := splitNameValue name in
                  match formal fs nm with
                  | None =>
                      if String.eqb nm "help" || String.eqb nm "h" then ErrHelp else BadFlag
                  | Some (BoolSetter set) =>
                      match value with
                      | Some val =>
                          match ParseBool val with
                          | Some b => Seen args' (set b v)
                          | None => BadFlag
                          end
                      | None => Seen args' (set true v)
                      end
                  | Some (IntSetter set) =>
                      match value, args' with
                      | Some val, _ =>
                          match ParseInt val with
                          | Some z => Seen args' (set z v)
                          | None => BadFlag
                          end
                      | None, val :: args'' =>
                          match ParseInt val with
                          | Some z => Seen args'' (set z v)
                          | None => BadFlag
                          end
                      | None, [] => BadFlag
                      end
                  | Some (StringSetter set) =>
                      match value, args' with
                      | Some val, _ => Seen args' (set val v)
                      | None, val :: args'' => Seen args'' (set val v)
                      | None, [] => BadFlag
                      end
                  end
            end
      | _ => Finished args
      end
  end.

(** [flag.Parse()] on the command line flag set, whose error handling is
    [ExitOnError]: exit status 0 after [-h], 2 after a parse error.  The
    result holds the variables and [flag.Args()]. *)
Fixpoint parseLoop (fuel : nat) (fs : FlagSet) (args : list string) (v : V)
    : Outcome (V * list string) :=
  match fuel with
  | O => Returns (v, args)
  | S k =>
      match parseOne fs args v with
      | Seen args' v' => parseLoop k fs args' v'
      | Finished rest => Returns (v, rest)
      | BadFlag => Exits 2 []
      | ErrHelp => Exits 0 []
      end
  end.

Definition Parse (fs : FlagSet) (args : list string) (v : V) : Outcome (V * list string) :=
  parseLoop (S (List.length args)) fs args v.
End Flag.

(** ** A decimal instance of [strconv.ParseInt]

    Used to run the model on concrete command lines: an optional sign
    followed by decimal digits, within the range of [int]. *)
Definition digit (c : ascii) : option Z :=
  let n := nat_of_ascii c in
  if ((48 <=? n) && (n <=? 57))%nat then Some (Z.of_nat (n - 48)) else None.

Fixpoint digits (acc : Z) (s : string) : option Z :=
  match s with
  | EmptyString => Some acc
  | String c s' =>
      match digit c with
      | Some d => digits (10 * acc + d)%Z s'
      | None => None
      end
  end.

Definition inRange (z : Z) : option Z :=
  if ((- 2 ^ 63 <=? z) && (z <? 2 ^ 63))%Z then Some z else None.

Definition Atoi (s : string) : option Z :=
  match s with
  | EmptyString => None
  | String "-" (String _ _ as ds) =>
      match digits 0 ds with Some z => inRange (- z) | None => None end
  | String "+" (String _ _ as ds) =>
      match digits 0 ds with Some z => inRange z | None => None end
  | _ => match digits 0 s with Some z => inRange z | None => None end
  end.

End Go.

(* ================================================================== *)
(** * The command line (args.go) *)
(* ================================================================== *)

Module Args.
Import Go.

Definition VERSION : string := "v1.4.1".
Definition MEGABYTE : Z := 1048576.
Definition PROG_NAME : string := "mgp".

Definition STD_EXC_DIRS : list string :=
  [".bzr"; "CVS"; ".git"; ".hg"; ".svn"; ".idea"; ".tox"].

Record Flags := mkFlags {
  workers : Z;
  nocolor : bool;
  icase : bool;
  exclude : string;
  limitBytes : Z;
  matchContext : bool
}.

(** [STD_EXC_DIRS] is a slice literal, its capacity is its length: [append]
    copies it, the package variable is never written through. *)
Definition GetExcludedDirs (f : Flags) : list string :=
  if String.eqb (exclude f) "" then STD_EXC_DIRS
  else (STD_EXC_DIRS ++ Split (exclude f) ",")%list.

Record Parameters := mkParameters {
  flags : Flags;
  startpath : string;
  pattern : string
}.

Definition PrintBriefHelpAndExit {A : Type} : Outcome A :=
  Exits 0 [PROG_NAME ++ " " ++ VERSION;
           "Usage: " ++ PROG_NAME ++ " [options] pattern starting/path";
           "Run " ++ PROG_NAME ++ " -h for more information"].

(** The variables the flags are bound to: the fields of [f] and the local
    [printVersion]. *)
Record Vars := mkVars {
  f : Flags;
  printVersion : bool
}.

Definition set_workers (z : Z) (v : Vars) : Vars :=
  let g := f v in
  mkVars (mkFlags z (nocolor g) (icase g) (exclude g) (limitBytes g) (matchContext g))
         (printVersion v).
Definition set_nocolor (b : bool) (v : Vars) : Vars :=
  let g := f v in
  mkVars (mkFlags (workers g) b (icase g) (exclude g) (limitBytes g) (matchContext g))
         (printVersion v).
Definition set_icase (b : bool) (v : Vars) : Vars :=
  let g := f v in
  mkVars (mkFlags (workers g) (nocolor g) b (exclude g) (limitBytes g) (matchContext g))
         (printVersion v).
Definition set_exclude (s : string) (v : Vars) : Vars :=
  let g := f v in
  mkVars (mkFlags (workers g) (nocolor g) (icase g) s (limitBytes g) (matchContext g))
         (printVersion v).
Definition set_limitBytes (z : Z) (v : Vars) : Vars :=
  let g := f v in
  mkVars (mkFlags (workers g) (nocolor g) (icase g) (exclude g) z (matchContext g))
         (printVersion v).
Definition set_matchContext (b : bool) (v : Vars) : Vars :=
  let g := f v in
  mkVars (mkFlags (workers g) (nocolor g) (icase g) (exclude g) (limitBytes g) b)
         (printVersion v).
Definition set_printVersion (b : bool) (v : Vars) : Vars :=
  mkVars (f v) b.

(** [f := Flags{}] and [printVersion := false] *)
Definition zeroVars : Vars := mkVars (mkFlags 0 false false "" 0 false) false.

(** The seven registrations of [ParseArgs], in the order of the source. *)
Definition registered : Vars * FlagSet Vars :=
  BoolVar set_matchContext "ctx" false
  (StringVar set_exclude "exc" ""
  (BoolVar set_nocolor "raw" false
  (BoolVar set_icase "i" false
  (IntVar set_limitBytes "lim" 100
  (BoolVar set_printVersion "v" false
  (IntVar set_workers "w" 100 (zeroVars, []))))))).

(** [ParseArgs], on [os.Args[1:]].  The multiplication by [MEGABYTE] is the
    statement between the registrations and [flag.Parse()]. *)
Definition ParseArgs (ParseInt : string -> option Z) (args : list string)
    : Outcome Parameters :=
  let v0 := fst registered in
  let v1 := set_limitBytes (mul64 (limitBytes (f v0)) MEGABYTE) v0 in
  match Parse ParseInt (snd registered) args v1 with
  | Returns (v, posArgs) =>
      if printVersion v || (List.length posArgs <? 2)%nat then PrintBriefHelpAndExit
      else
        match posArgs with
        | p :: s :: _ => Returns (mkParameters (f v) s p)
        | _ => PrintBriefHelpAndExit
        end
  | Exits code out => Exits code out
  | Panics r => Panics r
  end.

End Args.

(* ================================================================== *)
(** * The engine (mgp.go) *)
(* ================================================================== *)

Module Mgp.
Import Go.

Record Entry := mkEntry {
  Path : string;
  Info : FileInfo
}.

Inductive MessageType := MatchMessage | ErrorMatchMessage | TextMessage.

(** The runes U+2713 and U+00D7, as the bytes of their UTF-8 encoding. *)
Definition OK : string :=
  String (ascii_of_nat 226) (String (ascii_of_nat 156) (String (ascii_of_nat 147) "")).
Definition KO : string :=
  String (ascii_of_nat 195) (String (ascii_of_nat 151) "").

(** A call of [printHandler]: the result events of the engine. *)
Definition Call : Type := string * MessageType.

Definition isMatch (c : Call) : bool :=
  match snd c with MatchMessage => true | _ => false end.

Definition isError (c : Call) : bool :=
  match snd c with ErrorMatchMessage => true | _ => false end.

(** What is left of a walk: the tree under a path as [filepath.Walk] will
    find it.  [Missing] is a path whose [Lstat] fails; a [Node] carries the
    result of [Lstat], the error of reading the directory (if any) and the
    entries of the directory, each with the path name [Walk] passes on. *)
Inductive Tree :=
| Missing (pathname : string) (err : error)
| Node (pathname : string) (info : FileInfo) (rderr : option error) (kids : list Tree).

(** The state of [filepath.Walk] between two calls of its function: not yet
    started; inside the listed directories, innermost first, each with its
    entries still to visit; returned. *)
Inductive Walker :=
| AtRoot (t : Tree)
| InDirs (stack : list (list Tree))
| WalkReturned (err : option error).

(** What one call of the walk function did. *)
Record Visit := mkVisit {
  printed : list Call;
  enqueued : option Entry;
  result : Outcome (option error)
}.

Section Engine.

(** [green] and [red] of fatih/color; [filepath.Match] and [filepath.Base];
    [regexp.Compile]; [os.Open] as the workers find the files. *)
Variables green red : string -> string.
Variable filepath_Match : string -> string -> bool * option error.
Variable filepath_Base : string -> string.
Variable regexp_Compile : string -> Regexp + error.
Variable os_Open : string -> File + error.

(** [printHandler]: the lines written to the logger, under the package
    variable [coloredOutput]. *)
Definition printHandler (coloredOutput : bool) (message : string)
    (messageType : MessageType) : list string :=
  match messageType with
  | MatchMessage =>
      if coloredOutput then [green OK ++ " " ++ message] else [message]
  | ErrorMatchMessage =>
      if coloredOutput then [red KO ++ " " ++ message] else []
  | TextMessage => [message]
  end.

Definition render (coloredOutput : bool) (cs : list Call) : list string :=
  flat_map (fun c => printHandler coloredOutput (fst c) (snd c)) cs.

(** ** The worker *)

(** The reading loop of [handler].  [None]: the loop has not ended within
    [fuel] iterations.  Otherwise the calls of [printHandler] it made, and
    whether it ended normally ([true]) or in the call of [Match] on a nil
    [*regexp.Regexp] ([false]). *)
Fixpoint scan (fuel : nat) (r : option Regexp) (fullpath : string) (bufread : File)
    : option (list Call * bool) :=
  match fuel with
  | O => None
  | S k =>
      match ReadBytes newline bufread with
      | (line, err, bufread') =>
          if match err with Some e => is_EOF e | None => false end
          then Some ([], true)
          else
            match r with
            | None => Some ([], false)
            | Some re =>
                if re line then Some ([(fullpath, MatchMessage)], true)
                else scan k r fullpath bufread'
            end
      end
  end.

(** The body of [case e, more := <-ch] for a received entry. *)
Definition handleEntry (fuel : nat) (r : option Regexp) (e : Entry)
    : option (list Call * bool) :=
  let info := Info e in
  let fullpath := Path e in
  if negb (Mode_IsRegular (Mode info)) then Some ([], true)
  else
    match os_Open fullpath with
    | inr _ => Some ([], true)
    | inl file => scan fuel r fullpath file
    end.

(** ** The walker *)

Fixpoint excluded (isdir : bool) (pathname : string) (exc : list string) : bool :=
  match exc with
  | [] => false
  | n :: exc' =>
      let fullMatch := fst (filepath_Match n pathname) in
      let baseMatch := fst (filepath_Match n (filepath_Base pathname)) in
      if isdir && (fullMatch || baseMatch) then true
      else excluded isdir pathname exc'
  end.

(** [processPath]: the error returned and the entry sent on the channel. *)
Definition processPath (info : FileInfo) (pathname : string) (exc : list string)
    (limitMb : Z) : option error * option Entry :=
  let isdir := IsDir info in
  if excluded isdir pathname exc then (Some filepath_SkipDir, None)
  else if negb isdir && (Size info <? limitMb)%Z
       then (None, Some (mkEntry pathname info))
       else (None, None).

(** [handlePathError]: [info] points to the [os.FileInfo] of the walk
    function, a nil interface when [Lstat] failed. *)
Definition handlePathError (info : option FileInfo) (pathname : string) (err : error)
    : list Call * Outcome (option error) :=
  if os_IsNotExist err then ([], Exits 1 ["Invalid path"])
  else
    let printed := [(pathname, ErrorMatchMessage); (Error err, TextMessage)] in
    match info with
    | None => (printed, Panics "invalid memory address or nil pointer dereference")
    | Some fi =>
        if IsDir fi then (printed, Returns (Some filepath_SkipDir))
        else (printed, Returns None)
    end.

(** The function [Run] hands to [filepath.Walk]. *)
Definition walkFn (stopWalk : bool) (exludedDirs : list string) (limitMb : Z)
    (pathname : string) (info : option FileInfo) (err : option error) : Visit :=
  if stopWalk then
    mkVisit [] None (Returns (Some (errorString "user requested termination")))
  else
    match err with
    | Some e =>
        let (printed, res) := handlePathError info pathname e in
        mkVisit printed None res
    | None =>
        match info with
        | Some fi =>
            let (ret, enq) := processPath fi pathname exludedDirs limitMb in
            mkVisit [] enq (Returns ret)
        | None => mkVisit [] None (Panics "invalid memory address or nil pointer dereference")
        end
    end.

(** ** [filepath.Walk], one call of its function at a time *)

(** What [Walk] passes to its function for [t]: the path, the result of
    [Lstat] (nil when it failed) and the error, that of [Lstat] or, for a
    directory, that of reading it. *)
Definition pathOf (t : Tree) : string :=
  match t with
  | Missing p _ => p
  | Node p _ _ _ => p
  end.

Definition infoOf (t : Tree) : option FileInfo :=
  match t with
  | Missing _ _ => None
  | Node _ info _ _ => Some info
  end.

Definition walkError (t : Tree) : option error :=
  match t with
  | Missing _ e => Some e
  | Node _ info rderr _ => if IsDir info then rderr else None
  end.

Definition visit (stopWalk : bool) (exludedDirs : list string) (limitMb : Z)
    (t : Tree) : Visit :=
  walkFn stopWalk exludedDirs limitMb (pathOf t) (infoOf t) (walkError t).

(** The entries [walk] goes on with after its function returned [ret] on a
    directory that could be read. *)
Definition descend (t : Tree) (ret : option error) : option (list Tree) :=
  match t, ret with
  | Node _ info None kids, None => if IsDir info then Some kids else None
  | _, _ => None
  end.

(** Whether the loop over the entries of the parent goes on after [ret]. *)
Definition goesOn (t : Tree) (ret : option error) : bool :=
  match ret with
  | None => true
  | Some e =>
      is_SkipDir e &&
      match t with
      | Missing _ _ => true
      | Node _ info _ _ => IsDir info
      end
  end.

Fixpoint settle (stack : list (list Tree)) : Walker :=
  match stack with
  | [] => WalkReturned None
  | [] :: rest => settle rest
  | _ :: _ => InDirs stack
  end.

(** [walk] of the directory on top returns [err]; [rest] are its callers. *)
Definition propagate (err : error) (rest : list (list Tree)) : Walker :=
  if is_SkipDir err then settle rest else WalkReturned (Some err).

Definition afterRoot (t : Tree) (ret : option error) : Walker :=
  match descend t ret with
  | Some kids => settle [kids]
  | None =>
      match ret with
      | Some e => if is_SkipDir e then WalkReturned None else WalkReturned (Some e)
      | None => WalkReturned None
      end
  end.

Definition afterEntry (t : Tree) (ts : list Tree) (rest : list (list Tree))
    (ret : option error) : Walker :=
  match descend t ret with
  | Some kids => settle (kids :: ts :: rest)
  | None =>
      if goesOn t ret then settle (ts :: rest)
      else match ret with
           | Some e => propagate e rest
           | None => settle (ts :: rest)
           end
  end.

(** The entries a walk of [t] sends when it is neither stopped nor ended
    by an error: those of the files smaller than the limit, in the order of
    the walk, which does not enter a directory that is excluded or cannot
    be read. *)
Fixpoint candidates (exc : list string) (limit : Z) (t : Tree) : list Entry :=
  match t with
  | Missing _ _ => []
  | Node p info rderr kids =>
      if IsDir info then
        match rderr with
        | Some _ => []
        | None =>
            if excluded true p exc then []
            else flat_map (candidates exc limit) kids
        end
      else if (Size info <? limit)%Z then [mkEntry p info] else []
  end.

(** A walk of [t] that is not stopped meets no error: every path it
    visits exists, every directory it enters can be read. *)
Fixpoint quiet (exc : list string) (t : Tree) : bool :=
  match t with
  | Missing _ _ => false
  | Node p info rderr kids =>
      if IsDir info then
        match rderr with
        | Some _ => false
        | None => excluded true p exc || forallb (quiet exc) kids
        end
      else true
  end.

(** The number of calls of the walk function in such a walk. *)
Fixpoint visits (exc : list string) (t : Tree) : nat :=
  match t with
  | Missing _ _ => 1
  | Node p info rderr kids =>
      if IsDir info then
        match rderr with
        | Some _ => 1
        | None =>
            if excluded true p exc then 1
            else S (list_sum (map (visits exc) kids))
        end
      else 1
  end.

(** ** The run *)

Record Config := mkConfig {
  workers : nat;
  exludedDirs : list string;
  limitMb : Z
}.

Inductive Status :=
| Running
| Returned
| Exited (code : Z)
| Panicked (reason : string).

(** Where the goroutine of [Run] is. *)
Inductive Phase :=
| Walking (w : Walker)       (* in filepath.Walk *)
| Joining                    (* ch closed, in wg.Wait() *)
| Ending.                    (* closeSignalChan closed, before the last test *)

Record State := mkState {
  status : Status;
  coloredOutput : bool;
  r : option Regexp;
  stopWalk : bool;
  sigWaiting : bool;           (* the signal goroutine is parked on <-sigch *)
  toSend : nat;                (* iterations its loop has still to run *)
  closeSignalChan : nat;       (* values buffered in closeSignalChan *)
  closeSignalClosed : bool;
  ch : list Entry;             (* entries buffered in ch, oldest first *)
  chClosed : bool;
  wg : nat;                    (* handlers that have not returned *)
  phase : Phase;
  events : list Call;          (* the calls of printHandler so far *)
  log : list string            (* the lines written to out *)
}.

Definition set_status (x : Status) (s : State) : State :=
  mkState x (coloredOutput s) (r s) (stopWalk s) (sigWaiting s) (toSend s)
    (closeSignalChan s) (closeSignalClosed s) (ch s) (chClosed s) (wg s) (phase s)
    (events s) (log s).
Definition set_signal (stop waiting : bool) (n : nat) (s : State) : State :=
  mkState (status s) (coloredOutput s) (r s) stop waiting n
    (closeSignalChan s) (closeSignalClosed s) (ch s) (chClosed s) (wg s) (phase s)
    (events s) (log s).
Definition set_toSend (n : nat) (s : State) : State :=
  mkState (status s) (coloredOutput s) (r s) (stopWalk s) (sigWaiting s) n
    (closeSignalChan s) (closeSignalClosed s) (ch s) (chClosed s) (wg s) (phase s)
    (events s) (log s).
Definition set_closeSignalChan (n : nat) (closed : bool) (s : State) : State :=
  mkState (status s) (coloredOutput s) (r s) (stopWalk s) (sigWaiting s) (toSend s)
    n closed (ch s) (chClosed s) (wg s) (phase s) (events s) (log s).
Definition set_ch (q : list Entry) (closed : bool) (s : State) : State :=
  mkState (status s) (coloredOutput s) (r s) (stopWalk s) (sigWaiting s) (toSend s)
    (closeSignalChan s) (closeSignalClosed s) q closed (wg s) (phase s)
    (events s) (log s).
Definition set_wg (n : nat) (s : State) : State :=
  mkState (status s) (coloredOutput s) (r s) (stopWalk s) (sigWaiting s) (toSend s)
    (closeSignalChan s) (closeSignalClosed s) (ch s) (chClosed s) n (phase s)
    (events s) (log s).
Definition set_phase (p : Phase) (s : State) : State :=
  mkState (status s) (coloredOutput s) (r s) (stopWalk s) (sigWaiting s) (toSend s)
    (closeSignalChan s) (closeSignalClosed s) (ch s) (chClosed s) (wg s) p
    (events s) (log s).
(** [printHandler] called on each of [cs]. *)
Definition emit (cs : list Call) (s : State) : State :=
  mkState (status s) (coloredOutput s) (r s) (stopWalk s) (sigWaiting s) (toSend s)
    (closeSignalChan s) (closeSignalClosed s) (ch s) (chClosed s) (wg s) (phase s)
    (events s ++ cs) (log s ++ render (coloredOutput s) cs).
(** Lines written to the logger directly. *)
Definition write (lines : list string) (s : State) : State :=
  mkState (status s) (coloredOutput s) (r s) (stopWalk s) (sigWaiting s) (toSend s)
    (closeSignalChan s) (closeSignalClosed s) (ch s) (chClosed s) (wg s) (phase s)
    (events s) (log s ++ lines).

(** The capacity of [ch]. *)
Definition chCap : nat := 5000.

(** The cases of the [select] of [handler]. *)
Inductive Select := CaseClose | CaseEntry | CaseDefault.

Inductive Action :=
| Signal                          (* an interrupt or SIGTERM reaches the process *)
| SendToken                       (* the signal goroutine sends on closeSignalChan *)
| WalkStep                        (* filepath.Walk moves to its next call *)
| CloseCh                         (* close(ch) *)
| Join                            (* wg.Wait() returns, close(closeSignalChan) *)
| Finish                          (* the last test of stopWalk, Run returns *)
| Worker (sel : Select) (fuel : nat).   (* one iteration of a handler *)

(** [setSignalHandlers]: the body of its goroutine up to the loop.  A
    signal that arrives when nobody receives from [sigch] changes nothing. *)
Definition onSignal (cfg : Config) (s : State) : State :=
  if sigWaiting s then set_signal true false (workers cfg) s else s.

Definition onSendToken (cfg : Config) (s : State) : option State :=
  match toSend s with
  | O => None
  | S k =>
      if closeSignalClosed s
      then Some (set_status (Panicked "send on closed channel") s)
      else if (closeSignalChan s <? workers cfg)%nat
           then Some (set_toSend k (set_closeSignalChan (S (closeSignalChan s)) false s))
           else None
  end.

(** The effects of one call of the walk function; [next] gives the walker
    after a normal return.  The send on [ch] blocks while [ch] is full. *)
Definition applyVisit (v : Visit) (next : option error -> Walker) (s : State)
    : option State :=
  let blocked := match enqueued v with
                 | Some _ => (chCap <=? List.length (ch s))%nat
                 | None => false
                 end in
  if blocked then None
  else
    let s1 := emit (printed v) s in
    let s2 := match enqueued v with
              | Some e => set_ch (ch s1 ++ [e]) (chClosed s1) s1
              | None => s1
              end in
    match result v with
    | Returns ret => Some (set_phase (Walking (next ret)) s2)
    | Exits code out => Some (set_status (Exited code) (write out s2))
    | Panics reason => Some (set_status (Panicked reason) s2)
    end.

Definition onWalkStep (cfg : Config) (s : State) : option State :=
  match phase s with
  | Walking (AtRoot t) =>
      applyVisit (visit (stopWalk s) (exludedDirs cfg) (limitMb cfg) t) (afterRoot t) s
  | Walking (InDirs ((t :: ts) :: rest)) =>
      applyVisit (visit (stopWalk s) (exludedDirs cfg) (limitMb cfg) t)
                 (afterEntry t ts rest) s
  | Walking (InDirs stack) => Some (set_phase (Walking (settle stack)) s)
  | _ => None
  end.

Definition onCloseCh (s : State) : option State :=
  match phase s with
  | Walking (WalkReturned _) => Some (set_phase Joining (set_ch (ch s) true s))
  | _ => None
  end.

Definition onJoin (s : State) : option State :=
  match phase s, wg s with
  | Joining, O => Some (set_phase Ending (set_closeSignalChan (closeSignalChan s) true s))
  | _, _ => None
  end.

Definition onFinish (s : State) : option State :=
  match phase s with
  | Ending =>
      let s1 := if stopWalk s then emit [("Ended by user", TextMessage)] s else s in
      Some (set_status Returned s1)
  | _ => None
  end.

(** [handler], one iteration of its loop: the iteration that takes the case
    [sel] of the [select]; [default] is taken only when no channel is
    ready.  [wg.Done()] runs when the handler returns. *)
Definition handler (sel : Select) (fuel : nat) (s : State) : option State :=
  match wg s with
  | O => None
  | S live =>
      match sel with
      | CaseClose =>
          match closeSignalChan s with
          | S k => Some (set_wg live (set_closeSignalChan k (closeSignalClosed s) s))
          | O => None
          end
      | CaseEntry =>
          match ch s with
          | e :: q =>
              match handleEntry fuel (r s) e with
              | None => None
              | Some (calls, true) => Some (emit calls (set_ch q (chClosed s) s))
              | Some (calls, false) =>
                  Some (set_status
                          (Panicked "invalid memory address or nil pointer dereference")
                          (emit calls (set_ch q (chClosed s) s)))
              end
          | [] => if chClosed s then Some (set_wg live s) else None
          end
      | CaseDefault =>
          match closeSignalChan s, ch s, chClosed s with
          | O, [], false => Some s
          | _, _, _ => None
          end
      end
  end.

(** A step of the run: [None] when the action cannot happen in [s]. *)
Definition step (cfg : Config) (a : Action) (s : State) : option State :=
  match status s with
  | Running =>
      match a with
      | Signal => Some (onSignal cfg s)
      | SendToken => onSendToken cfg s
      | WalkStep => onWalkStep cfg s
      | CloseCh => onCloseCh s
      | Join => onJoin s
      | Finish => onFinish s
      | Worker sel fuel => handler sel fuel s
      end
  | _ => None
  end.

Fixpoint exec (cfg : Config) (sched : list Action) (s : State) : option State :=
  match sched with
  | [] => Some s
  | a :: sched' =>
      match step cfg a s with
      | Some s' => exec cfg sched' s'
      | None => None
      end
  end.

(** The states of a run, from [s0] on. *)
Inductive reachable (cfg : Config) (s0 : State) : State -> Prop :=
| reach_start : reachable cfg s0 s0
| reach_step : forall s a s',
    reachable cfg s0 s -> step cfg a s = Some s' -> reachable cfg s0 s'.

(** The states a schedule goes through from [s], up to the first action
    that cannot happen. *)
Fixpoint states (cfg : Config) (sched : list Action) (s : State) : list State :=
  s :: match sched with
       | [] => []
       | a :: sched' =>
           match step cfg a s with
           | Some s' => states cfg sched' s'
           | None => []
           end
       end.

(** What is left of the walk lies inside what the walk of [root] enters:
    every tree still to visit only yields entries that the walk of [root]
    yields. *)
Definition inside (exc : list string) (limit : Z) (root t : Tree) : Prop :=
  incl (candidates exc limit t) (candidates exc limit root).

Definition frontierOk (exc : list string) (limit : Z) (root : Tree) (p : Phase) : Prop :=
  match p with
  | Walking (AtRoot t) => inside exc limit root t
  | Walking (InDirs stack) => Forall (Forall (inside exc limit root)) stack
  | _ => True
  end.

(** The queue and the matches reported so far come from the entries the
    walk of [root] yields. *)
Definition fromCandidates (cfg : Config) (root : Tree) (s : State) : Prop :=
  frontierOk (exludedDirs cfg) (limitMb cfg) root (phase s) /\
  Forall (fun e => In e (candidates (exludedDirs cfg) (limitMb cfg) root)) (ch s) /\
  (forall p, In (p, MatchMessage) (events s) ->
             exists e, In e (candidates (exludedDirs cfg) (limitMb cfg) root) /\ Path e = p).

(** The pattern [Run] compiles and the pointer it keeps: the error of
    [regexp.Compile] is dropped, the pointer is nil when there is one. *)
Definition effectivePattern (caseInsensitive : bool) (pattern : string) : string :=
  if caseInsensitive then "(?i)" ++ pattern else pattern.

Definition compiled (caseInsensitive : bool) (pattern : string) : option Regexp :=
  match regexp_Compile (effectivePattern caseInsensitive pattern) with
  | inl re => Some re
  | inr _ => None
  end.

(** [Run] up to the call of [filepath.Walk]: the logger and the package
    variable are set, the pattern is compiled, the channels are made, the
    signal goroutine and the handlers are started.  [root] is the tree
    under [startpath].  A negative [workers] panics in [make]. *)
Definition Run (workers : Z) (caseInsensitive colors : bool) (root : Tree)
    (pattern : string) (exludedDirs : list string) (limitMb : Z)
    : Outcome (Config * State) :=
  if (workers <? 0)%Z then Panics "makechan: size out of range"
  else
    Returns
      (mkConfig (Z.to_nat workers) exludedDirs limitMb,
       {| status := Running;
          coloredOutput := colors;
          r := compiled caseInsensitive pattern;
          stopWalk := false;
          sigWaiting := true;
          toSend := 0;
          closeSignalChan := 0;
          closeSignalClosed := false;
          ch := [];
          chClosed := false;
          wg := Z.to_nat workers;
          phase := Walking (AtRoot root);
          events := [];
          log := [] |}).

End Engine.

(** How often a flag goes from [false] to [true], and from [true] to
    [false], along a sequence of its values. *)
Fixpoint flips (bs : list bool) : nat :=
  match bs with
  | b :: (b' :: _) as bs' => (if negb b && b' then 1 else 0) + flips bs'
  | _ => 0
  end.

Fixpoint resets (bs : list bool) : nat :=
  match bs with
  | b :: (b' :: _) as bs' => (if b && negb b' then 1 else 0) + resets bs'
  | _ => 0
  end.

Definition matches (cs : list Call) : nat := List.length (filter isMatch cs).

(** ** Invariants of a run *)

Definition walking (p : Phase) : bool :=
  match p with Walking _ => true | _ => false end.

Definition ending (p : Phase) : bool :=
  match p with Ending => true | _ => false end.

(** What [processPath] has checked of an entry it sent. *)
Definition entryOk (limit : Z) (e : Entry) : Prop :=
  IsDir (Info e) = false /\ (Size (Info e) < limit)%Z.

(** The values of [closeSignalChan]: sent only after the signal, never
    more than one for each handler. *)
Definition tokensOk (cfg : Config) (s : State) : Prop :=
  closeSignalChan s + toSend s <= workers cfg /\
  (sigWaiting s = true ->
   closeSignalChan s = 0 /\ toSend s = 0 /\ stopWalk s = false).

(** Where [Run] is, against the channels and the wait group. *)
Definition phasesOk (cfg : Config) (s : State) : Prop :=
  chClosed s = negb (walking (phase s)) /\
  closeSignalClosed s = ending (phase s) /\
  (phase s = Ending -> wg s = 0) /\
  wg s <= workers cfg /\
  (status s = Returned -> phase s = Ending).

(** [s'] is [s] after a stretch of the walk that sent [added] and
    reported nothing. *)
Definition walked (s s' : State) (added : list Entry) : Prop :=
  status s' = Running /\ stopWalk s' = false /\
  ch s' = (ch s ++ added)%list /\ events s' = events s /\ log s' = log s.

(** Without a signal a handler returns only from the closed, empty [ch]. *)
Definition drained (cfg : Config) (s : State) : Prop :=
  sigWaiting s = true -> wg s < workers cfg -> ch s = [] /\ chClosed s = true.

End Mgp.

(* ================================================================== *)
(** * The older program (main.go of the single-file version) *)
(* ================================================================== *)

Module Legacy.
Import Go.

Definition MEGABYTE : Z := 1048576.

Section Program.

Variables green red : string -> string.
Variable filepath_Match : string -> string -> bool * option error.
Variable filepath_Base : string -> string.
Variable regexp_Compile : string -> Regexp + error.
Variable os_Stat : string -> FileInfo + error.
Variable os_ReadFile : string -> string + error.

(** The body of the loop of [handler] for a received path: the lines it
    logs, and [false] when it ends in [Match] on a nil [*regexp.Regexp]. *)
Definition handleEntry (r : option Regexp) (filepath : string) : list string * bool :=
  match os_Stat filepath with
  | inr _ => ([], true)
  | inl fi =>
      if negb (Mode_IsRegular (Mode fi)) then ([], true)
      else
        match os_ReadFile filepath with
        | inr _ => ([], true)
        | inl filedata =>
            match r with
            | None => ([], false)
            | Some re =>
                if re filedata then ([green Mgp.OK ++ " " ++ filepath], true)
                else ([], true)
            end
        end
  end.

Fixpoint excluded (isdir : bool) (pathname : string) (excludes : list string) : bool :=
  match excludes with
  | [] => false
  | n :: rest =>
      let match1 := fst (filepath_Match n pathname) in
      let match2 := fst (filepath_Match n (filepath_Base pathname)) in
      if isdir && (match1 || match2) then true
      else excluded isdir pathname rest
  end.

(** [processPath]: the error returned and the path sent on the channel. *)
Definition processPath (info : FileInfo) (pathname : string) (excludes : list string)
    : option error * option string :=
  let isdir := IsDir info in
  if excluded isdir pathname excludes then (Some filepath_SkipDir, None)
  else if negb isdir && (Size info <? MEGABYTE)%Z then (None, Some pathname)
       else (None, None).

(** [handlePathError]: the line it logs and what it returns. *)
Definition handlePathError (info : option FileInfo) (pathname : string)
    : list string * Outcome (option error) :=
  let line := red Mgp.KO ++ " " ++ pathname in
  match info with
  | None => ([line], Panics "invalid memory address or nil pointer dereference")
  | Some fi =>
      if IsDir fi then ([line], Returns (Some filepath_SkipDir))
      else ([line], Returns None)
  end.

(** The pointer [main] hands to the handlers. *)
Definition compiled (icase : bool) (pattern : string) : option Regexp :=
  match regexp_Compile (if icase then "(?i)" ++ pattern else pattern) with
  | inl re => Some re
  | inr _ => None
  end.

End Program.

End Legacy.

(* ================================================================== *)
(** * Instances of the library parameters

    Used to evaluate the model on concrete inputs.  Each one agrees with
    the Go function on the domain stated with it. *)
(* ================================================================== *)

Module Sample.
Import Go.

Definition esc : ascii := ascii_of_nat 27.

(** The colour functions of fatih/color with colours enabled: the text
    between an SGR sequence and the reset sequence. *)
Definition sgr (code text : string) : string :=
  String esc ("[" ++ code ++ "m") ++ text ++ String esc "[0m".
Definition green : string -> string := sgr "92".
Definition red : string -> string := sgr "31".

Definition slash : ascii := "/"%char.

(** [filepath.Match] for patterns made of ordinary characters, ['*'] and
    ['?'] (no character class, no escape), on Unix. *)
Fixpoint glob (pattern : list ascii) : list ascii -> bool :=
  match pattern with
  | [] => fun name => match name with [] => true | _ :: _ => false end
  | p :: pattern' =>
      if Ascii.eqb p "*"%char then
        fix star (name : list ascii) : bool :=
          glob pattern' name ||
          match name with
          | [] => false
          | c :: name' => negb (Ascii.eqb c slash) && star name'
          end
      else if Ascii.eqb p "?"%char then
        fun name =>
          match name with
          | c :: name' => negb (Ascii.eqb c slash) && glob pattern' name'
          | [] => false
          end
      else
        fun name =>
          match name with
          | c :: name' => Ascii.eqb c p && glob pattern' name'
          | [] => false
          end
  end.

Definition Match (pattern name : string) : bool * option error :=
  (glob (list_ascii_of_string pattern) (list_ascii_of_string name), None).

Fixpoint dropTrailing (l : list ascii) : list ascii :=
  match l with
  | [] => []
  | c :: l' =>
      match dropTrailing l' with
      | [] => if Ascii.eqb c slash then [] else [c]
      | t => c :: t
      end
  end.

Fixpoint lastElem (cur l : list ascii) : list ascii :=
  match l with
  | [] => cur
  | c :: l' => if Ascii.eqb c slash then lastElem [] l' else lastElem (cur ++ [c]) l'
  end.

(** [filepath.Base] on Unix. *)
Definition Base (path : string) : string :=
  match path with
  | EmptyString => "."
  | _ =>
      match dropTrailing (list_ascii_of_string path) with
      | [] => "/"
      | l => string_of_list_ascii (lastElem [] l)
      end
  end.

Definition lower (c : ascii) : ascii :=
  let n := nat_of_ascii c in
  if ((65 <=? n) && (n <=? 90))%nat then ascii_of_nat (n + 32) else c.

Fixpoint lowerStr (s : string) : string :=
  match s with
  | EmptyString => EmptyString
  | String c s' => String (lower c) (lowerStr s')
  end.

Definition plainChar (c : ascii) : bool :=
  let n := nat_of_ascii c in
  ((48 <=? n) && (n <=? 57) || (65 <=? n) && (n <=? 90) || (97 <=? n) && (n <=? 122)
   || (n =? 32) || (n =? 95))%nat.

Fixpoint plain (s : string) : bool :=
  match s with
  | EmptyString => true
  | String c s' => plainChar c && plain s'
  end.

(** [regexp.Compile] on the patterns the examples use: letters, digits,
    spaces and underscores, which match as a substring, after an optional
    ["(?i)"]; and the pattern ["("], with or without ["(?i)"] before it,
    which does not compile (missing closing parenthesis).  Other patterns
    are outside this instance, it reports them as errors too. *)
Definition Compile (pattern : string) : Regexp + error :=
  let icase := HasPrefix pattern "(?i)" in
  let body := if icase then substring 4 (String.length pattern - 4) pattern else pattern in
  if plain body then
    inl (fun b : string =>
           if icase then Contains (lowerStr b) (lowerStr body) else Contains b body)
  else if String.eqb body "(" then
    inr (errorString ("error parsing regexp: missing closing ): `" ++ pattern ++ "`"))
  else inr (errorString "pattern outside the instance").

(** A file system for [os.Open], [os.Stat] and [os.ReadFile], as a list
    of paths with what is found there. *)
Definition lookup {A : Type} (fs : list (string * A)) (path : string) : A + error :=
  match find (fun kv => String.eqb (fst kv) path) fs with
  | Some kv => inl (snd kv)
  | None => inr (PathError "open" path ENOENT)
  end.

Definition regular (name : string) (size : Z) : FileInfo := mkFileInfo name size 420%Z.
Definition directory (name : string) : FileInfo :=
  mkFileInfo name 4096%Z (Z.lor ModeDir 493%Z).
Definition symlink (name : string) (size : Z) : FileInfo :=
  mkFileInfo name size (Z.lor ModeSymlink 511%Z).

End Sample.

(* ================================================================== *)
(** * The properties as the specification words them

    Kept apart from the program: these definitions follow the text of the
    specification and are compared with the functions above. *)
(* ================================================================== *)

Module Spec.
Import Go.

Section Eligibility.
Variable filepath_Match : string -> string -> bool * option error.
Variable filepath_Base : string -> string.

(** "A path is excluded if its full path or its base name matches any glob
    in the exclusion set." *)
Definition isExcluded (pathname : string) (exc : list string) : bool :=
  existsb (fun n => fst (filepath_Match n pathname)
                    || fst (filepath_Match n (filepath_Base pathname))) exc.

(** "A path is enqueued iff it is a regular file, not excluded, and its
    size is strictly less than the configured limit." *)
Definition eligible (info : FileInfo) (pathname : string) (exc : list string)
    (limit : Z) : bool :=
  Mode_IsRegular (Mode info) && negb (isExcluded pathname exc) && (Size info <? limit)%Z.
End Eligibility.

(** "One line per walk-error event: a failure symbol plus the path,
    followed by a line with the error text." *)
Definition errorReport (out : list string) (pathname errtext : string) : Prop :=
  exists l, out = [l; errtext] /\ Contains l Mgp.KO = true /\ Contains l pathname = true.

(** "v megabytes expressed in bytes" *)
Definition megabytes (v : Z) : Z := (v * 1048576)%Z.

End Spec.

(* ================================================================== *)
(** * Concrete runs *)
(* ================================================================== *)

Module Runs.
Import Go Sample.

Definition nl : string := String newline EmptyString.

(** The compiled form of a pattern that is plain text: a substring test. *)
Definition literal (text : string) : Regexp := fun b => Contains b text.

(** ** A project directory with one unreadable directory, one entry that
    has vanished and files of several kinds *)
Definition denied (p : string) : error := PathError "open" p EACCES.
Definition vanished (p : string) : error := PathError "lstat" p ENOENT.

Definition treeDenied : Mgp.Tree :=
  Mgp.Node "r" (directory "r") None
    [ Mgp.Node "r/locked" (directory "locked") (Some (denied "r/locked"))
        [ Mgp.Node "r/locked/in.txt" (regular "in.txt" 4) None [] ];
      Mgp.Node "r/b.txt" (regular "b.txt" 4) None [] ].

Definition treeNoAccess : Mgp.Tree :=
  Mgp.Node "r" (directory "r") None
    [ Mgp.Missing "r/a.txt" (PathError "lstat" "r/a.txt" EACCES);
      Mgp.Node "r/b.txt" (regular "b.txt" 4) None [] ].

Definition treeVanished : Mgp.Tree :=
  Mgp.Node "r" (directory "r") None
    [ Mgp.Missing "r/a.txt" (vanished "r/a.txt");
      Mgp.Node "r/b.txt" (regular "b.txt" 4) None [] ].

Definition files : list (string * File) :=
  [ ("r/b.txt", mkFile ("foo" ++ nl) io_EOF);
    ("r/twice.txt", mkFile (unlines ["foo"; "bar"; "foo"]) io_EOF);
    ("r/last.txt", mkFile ("bar" ++ nl ++ "foo") io_EOF);
    ("r/across.txt", mkFile (unlines ["a"; "b"]) io_EOF);
    ("r/bad.txt", mkFile "" (PathError "read" "r/bad.txt" EIO));
    ("r/half.txt", mkFile "foo" (PathError "read" "r/half.txt" EIO)) ].

Definition os_Open : string -> File + error := lookup files.

Definition treeTwice : Mgp.Tree :=
  Mgp.Node "r" (directory "r") None
    [ Mgp.Node "r/twice.txt" (regular "twice.txt" 12) None [] ].

(** The same, for [os.Stat] and [os.ReadFile] of the older program: the
    second file cannot be read. *)
Definition stats : list (string * FileInfo) :=
  [ ("r/b.txt", regular "b.txt" 4); ("r/bad.txt", regular "bad.txt" 0) ].
Definition contents : list (string * string) :=
  [ ("r/b.txt", "foo" ++ nl) ].
Definition os_Stat : string -> FileInfo + error := lookup stats.
Definition os_ReadFile : string -> string + error := lookup contents.

Definition entry (path : string) (size : Z) : Mgp.Entry :=
  Mgp.mkEntry path (regular (Base path) size).

(** The engine over the instances. *)
Definition Run := Mgp.Run Compile.
Definition step := Mgp.step green red Match Base os_Open.
Definition exec := Mgp.exec green red Match Base os_Open.
Definition handleEntry := Mgp.handleEntry os_Open.

(** A state in which one handler is about to receive [e]. *)
Definition receiving (r : option Regexp) (colors : bool) (e : Mgp.Entry) : Mgp.State :=
  {| Mgp.status := Mgp.Running;
     Mgp.coloredOutput := colors;
     Mgp.r := r;
     Mgp.stopWalk := false;
     Mgp.sigWaiting := true;
     Mgp.toSend := 0;
     Mgp.closeSignalChan := 0;
     Mgp.closeSignalClosed := false;
     Mgp.ch := [e];
     Mgp.chClosed := false;
     Mgp.wg := 2;
     Mgp.phase := Mgp.Walking (Mgp.InDirs []);
     Mgp.events := [];
     Mgp.log := [] |}.

(** The configuration and the first state of the run of
    [Run 2 false true root "foo" STD_EXC_DIRS 104857600]. *)
Definition cfg2 : Mgp.Config := Mgp.mkConfig 2 Args.STD_EXC_DIRS 104857600.

Definition started (root : Mgp.Tree) : Mgp.State :=
  Mgp.mkState Mgp.Running true (Mgp.compiled Compile false "foo")
    false true 0 0 false [] false 2 (Mgp.Walking (Mgp.AtRoot root)) [] [].

(** A state in which the walk is inside the directories of [stack]. *)
Definition walkingIn (stack : list (list Mgp.Tree)) : Mgp.State :=
  {| Mgp.status := Mgp.Running;
     Mgp.coloredOutput := true;
     Mgp.r := Some (literal "foo");
     Mgp.stopWalk := false;
     Mgp.sigWaiting := true;
     Mgp.toSend := 0;
     Mgp.closeSignalChan := 0;
     Mgp.closeSignalClosed := false;
     Mgp.ch := [];
     Mgp.chClosed := false;
     Mgp.wg := 2;
     Mgp.phase := Mgp.Walking (Mgp.InDirs stack);
     Mgp.events := [];
     Mgp.log := [] |}.

(** The same after a signal, before the handlers were told. *)
Definition stoppedIn (stack : list (list Mgp.Tree)) : Mgp.State :=
  Mgp.set_signal true false 2 (walkingIn stack).

(** A state in which [Run] has closed [closeSignalChan] and no signal has
    come yet. *)
Definition ended : Mgp.State :=
  Mgp.mkState Mgp.Running true (Some (literal "foo"))
    false true 0 0 true [] true 0 Mgp.Ending [] [].

End Runs.

(* ================================================================== *)
(** * Properties *)
(* ================================================================== *)

Import Go.

Unset Implicit Arguments.

(** ** Strings *)

Lemma append_empty_r (s : string) : s ++ "" = s.
Proof. induction s as [|c s IH]; simpl; [reflexivity | now rewrite IH]. Qed.

Lemma revstr_revstr (s a b : string) : revstr a (revstr b s) = revstr (s ++ a) b.
Proof.
  revert a b. induction s as [|c s IH]; intros a b; simpl.
  - reflexivity.
  - rewrite IH. reflexivity.
Qed.

Lemma revstr_involutive (s : string) : revstr "" (revstr "" s) = s.
Proof. rewrite revstr_revstr. simpl. apply append_empty_r. Qed.

Lemma HasPrefix_empty (s : string) : HasPrefix s "" = true.
Proof. destruct s; reflexivity. Qed.

Lemma splitFrom_field (g rest cur : string) :
  Contains_byte "," g = false ->
  splitFrom "," (g ++ rest) 0 cur = splitFrom "," rest 0 (revstr cur g).
Proof.
  revert cur. induction g as [|c g IH]; intros cur H; simpl in *.
  - reflexivity.
  - apply orb_false_iff in H. destruct H as [Hc Hg].
    rewrite Hc. simpl. apply IH. exact Hg.
Qed.

Lemma Split_Join_commas (g : string) (globs : list string) :
  Forall (fun x => Contains_byte "," x = false) (g :: globs) ->
  Split (Join (g :: globs) ",") "," = g :: globs.
Proof.
  unfold Split, Join. revert g. induction globs as [|g2 globs IH]; intros g H.
  - inversion H; subst. simpl.
    rewrite <- (append_empty_r g) at 1. rewrite splitFrom_field by assumption.
    simpl. now rewrite revstr_involutive.
  - inversion H; subst.
    change (String.concat "," (g :: g2 :: globs))
      with (g ++ String "," (String.concat "," (g2 :: globs))).
    rewrite splitFrom_field by assumption.
    cbn [splitFrom HasPrefix String.length Nat.sub].
    rewrite Ascii.eqb_refl, HasPrefix_empty. cbn [andb].
    rewrite revstr_involutive. f_equal. apply IH. assumption.
Qed.

(** ** The command line *)

(** C6. The exclusion set of a run holds every default glob; without
    [-exc] it is the default set, and with a comma-separated list it is the
    default set followed by the globs of the list, in their order. *)
Theorem C6_exclusion_set_is_defaults_then_user_globs :
  forall f : Args.Flags,
    (forall g, In g Args.STD_EXC_DIRS -> In g (Args.GetExcludedDirs f)) /\
    (Args.exclude f = "" -> Args.GetExcludedDirs f = Args.STD_EXC_DIRS) /\
    (forall globs,
        Args.exclude f = Join globs "," ->
        Args.exclude f <> "" ->
        Forall (fun g => Contains_byte "," g = false) globs ->
        Args.GetExcludedDirs f = (Args.STD_EXC_DIRS ++ globs)%list).
Proof.
  intros f. unfold Args.GetExcludedDirs. repeat split.
  - intros g Hg. destruct (String.eqb (Args.exclude f) "").
    + exact Hg.
    + apply in_or_app. now left.
  - intros E. rewrite E. reflexivity.
  - intros globs E NE Hall.
    destruct (String.eqb_spec (Args.exclude f) "") as [E0|_]; [contradiction|].
    destruct globs as [|g globs].
    + exfalso. apply NE. rewrite E. reflexivity.
    + rewrite E. now rewrite Split_Join_commas.
Qed.

Lemma C6_exclusion_set_witness :
  Args.GetExcludedDirs (Args.mkFlags 100 false false "build,*.log" 104857600 false)
  = [".bzr"; "CVS"; ".git"; ".hg"; ".svn"; ".idea"; ".tox"; "build"; "*.log"].
Proof.
  apply (proj2 (proj2 (C6_exclusion_set_is_defaults_then_user_globs
                         (Args.mkFlags 100 false false "build,*.log" 104857600 false)))
           ["build"; "*.log"]).
  - reflexivity.
  - discriminate.
  - repeat constructor.
Defined.

(** The list given to [-exc] reaches [GetExcludedDirs] unchanged. *)
Example exc_on_the_command_line :
  match Args.ParseArgs Atoi ["-exc"; "build,*.log"; "foo"; "."] with
  | Returns p =>
      Args.GetExcludedDirs (Args.flags p) = (Args.STD_EXC_DIRS ++ ["build"; "*.log"])%list
  | _ => False
  end.
Proof. reflexivity. Qed.

Lemma no_dash_is_positional (V : Type) (ParseInt : string -> option Z)
    (fs : FlagSet V) (pat : string) (args : list string) (v : V) :
  HasPrefix pat "-" = false ->
  parseOne ParseInt fs (pat :: args) v = Finished V (pat :: args).
Proof.
  intros H. destruct pat as [|c0 [|c1 r1]]; simpl in *; try reflexivity.
  rewrite andb_true_r in H. rewrite H. reflexivity.
Qed.

(** C5. The value given to [-lim] becomes the limit as it is, a number of
    bytes: the multiplication by [MEGABYTE] has run before the command line
    is parsed and only reaches the default, which is 100 megabytes. *)
Theorem C5_lim_value_is_not_converted :
  forall (ParseInt : string -> option Z) (s pat root : string) (v : Z),
    ParseInt s = Some v ->
    HasPrefix pat "-" = false ->
    (exists p, Args.ParseArgs ParseInt ["-lim"; s; pat; root] = Returns p /\
               Args.limitBytes (Args.flags p) = v) /\
    (exists p, Args.ParseArgs ParseInt [pat; root] = Returns p /\
               Args.limitBytes (Args.flags p) = Spec.megabytes 100).
Proof.
  intros ParseInt s pat root v Hs Hpat. split.
  - unfold Args.ParseArgs, Parse.
    cbn [List.length parseLoop].
    replace (parseOne ParseInt (snd Args.registered) ["-lim"; s; pat; root]
               (Args.set_limitBytes
                  (mul64 (Args.limitBytes (Args.f (fst Args.registered))) Args.MEGABYTE)
                  (fst Args.registered)))
      with (Seen [pat; root]
              (Args.set_limitBytes v
                 (Args.set_limitBytes
                    (mul64 (Args.limitBytes (Args.f (fst Args.registered))) Args.MEGABYTE)
                    (fst Args.registered)))).
    2:{ cbn. rewrite Hs. reflexivity. }
    rewrite no_dash_is_positional by assumption.
    eexists. split; reflexivity.
  - unfold Args.ParseArgs, Parse.
    cbn [List.length parseLoop].
    rewrite no_dash_is_positional by assumption.
    eexists. split; reflexivity.
Qed.

Lemma C5_lim_value_witness :
  (exists p, Args.ParseArgs Atoi ["-lim"; "1"; "foo"; "."] = Returns p /\
             Args.limitBytes (Args.flags p) = 1%Z) /\
  (exists p, Args.ParseArgs Atoi ["foo"; "."] = Returns p /\
             Args.limitBytes (Args.flags p) = Spec.megabytes 100).
Proof.
  apply (C5_lim_value_is_not_converted Atoi "1" "foo" "." 1%Z); reflexivity.
Defined.

(** The limit [processPath] compares with is the parsed value: with
    [-lim 1] a file of 5 bytes is turned away, although 5 bytes are far
    less than one megabyte. *)
Example lim_1_turns_away_5_bytes :
  match Args.ParseArgs Atoi ["-lim"; "1"; "foo"; "."] with
  | Returns p =>
      Args.limitBytes (Args.flags p) <> Spec.megabytes 1 /\
      (5 <? Spec.megabytes 1)%Z = true /\
      snd (Mgp.processPath Sample.Match Sample.Base (Sample.regular "a.txt" 5) "a.txt"
             (Args.GetExcludedDirs (Args.flags p)) (Args.limitBytes (Args.flags p)))
      = None
  | _ => False
  end.
Proof. cbn. repeat split; discriminate. Qed.

(** ** The walker: eligibility *)

Lemma excluded_not_dir Match Base (pathname : string) (exc : list string) :
  Mgp.excluded Match Base false pathname exc = false.
Proof. induction exc as [|n exc IH]; simpl; [reflexivity | exact IH]. Qed.

Lemma excluded_dir Match Base (pathname : string) (exc : list string) :
  Mgp.excluded Match Base true pathname exc = Spec.isExcluded Match Base pathname exc.
Proof.
  induction exc as [|n exc IH]; simpl; [reflexivity|].
  destruct (fst (Match n pathname) || fst (Match n (Base pathname))); simpl;
    [reflexivity | exact IH].
Qed.

Lemma regular_not_dir (m : FileMode) : Mode_IsRegular m = true -> Mode_IsDir m = false.
Proof.
  unfold Mode_IsRegular, Mode_IsDir. intros H. apply Z.eqb_eq in H.
  apply negb_false_iff, Z.eqb_eq. apply Z.bits_inj'. intros n Hn.
  rewrite Z.land_spec, Z.bits_0.
  assert (Hb : Z.testbit (Z.land m ModeType) n = false) by (rewrite H; apply Z.bits_0).
  rewrite Z.land_spec in Hb.
  destruct (Z.testbit ModeDir n) eqn:Hd; [|apply andb_false_r].
  assert (Ht : Z.testbit ModeType n = true).
  { unfold ModeType. rewrite Z.lor_spec, Hd. reflexivity. }
  rewrite Ht, andb_true_r in Hb. rewrite Hb. reflexivity.
Qed.

(** C2, as the code has it. A visited path is enqueued exactly when it is
    not a directory and its size is strictly less than the limit.  The
    exclusion globs act on directories only: an excluded directory is
    answered with [SkipDir], a file that matches a glob is enqueued like
    any other.  A path that is neither a directory nor a regular file is
    enqueued too; the handler that receives it drops it without opening
    it. *)
Theorem C2_enqueued_iff_not_directory_and_under_limit :
  forall Match Base (os_Open : string -> File + error)
         (info : FileInfo) (pathname : string) (exc : list string) (limit : Z),
    let v := Mgp.walkFn Match Base false exc limit pathname (Some info) None in
    Mgp.enqueued v =
      (if negb (IsDir info) && (Size info <? limit)%Z
       then Some (Mgp.mkEntry pathname info) else None) /\
    Mgp.result v =
      Returns (if IsDir info && Spec.isExcluded Match Base pathname exc
               then Some filepath_SkipDir else None) /\
    (Mode_IsRegular (Mode info) = false ->
     forall fuel r,
       Mgp.handleEntry os_Open fuel r (Mgp.mkEntry pathname info) = Some ([], true)).
Proof.
  intros Match Base os_Open info pathname exc limit v. subst v.
  unfold Mgp.walkFn, Mgp.processPath.
  destruct (IsDir info) eqn:Hd.
  - rewrite excluded_dir.
    destruct (Spec.isExcluded Match Base pathname exc); simpl; repeat split;
      intros Hr fuel r; unfold Mgp.handleEntry; simpl; rewrite Hr; reflexivity.
  - rewrite excluded_not_dir. simpl.
    destruct (Size info <? limit)%Z; simpl; repeat split;
      intros Hr fuel r; unfold Mgp.handleEntry; simpl; rewrite Hr; reflexivity.
Qed.

Lemma C2_enqueued_witness :
  Mgp.handleEntry Runs.os_Open 3 (Some (Runs.literal "foo"))
    (Mgp.mkEntry "r/link" (Sample.symlink "link" 7)) = Some ([], true).
Proof.
  apply (proj2 (proj2 (C2_enqueued_iff_not_directory_and_under_limit
                         Sample.Match Sample.Base Runs.os_Open
                         (Sample.symlink "link" 7) "r/link" Args.STD_EXC_DIRS 104857600%Z))).
  reflexivity.
Defined.

(** C2, as the specification words it, fails on a regular file that matches
    an exclusion glob and on a symbolic link: both are enqueued. *)
Lemma C2_excluded_file_and_symlink_are_enqueued :
  let exc := (Args.STD_EXC_DIRS ++ ["*.txt"])%list in
  let notes := Sample.regular "notes.txt" 10 in
  let link := Sample.symlink "link" 7 in
  (Spec.eligible Sample.Match Sample.Base notes "r/notes.txt" exc 104857600 = false /\
   Mgp.enqueued (Mgp.walkFn Sample.Match Sample.Base false exc 104857600
                   "r/notes.txt" (Some notes) None)
   = Some (Mgp.mkEntry "r/notes.txt" notes)) /\
  (Spec.eligible Sample.Match Sample.Base link "r/link" exc 104857600 = false /\
   Mgp.enqueued (Mgp.walkFn Sample.Match Sample.Base false exc 104857600
                   "r/link" (Some link) None)
   = Some (Mgp.mkEntry "r/link" link)).
Proof. repeat split; reflexivity. Qed.

(** ** The reporter *)

Lemma handlePathError_printed (info : option FileInfo) (pathname : string) (err : error) :
  os_IsNotExist err = false ->
  fst (Mgp.handlePathError info pathname err)
  = [(pathname, Mgp.ErrorMatchMessage); (Error err, Mgp.TextMessage)].
Proof.
  intros H. unfold Mgp.handlePathError. rewrite H.
  destruct info as [fi|]; [destruct (IsDir fi)|]; reflexivity.
Qed.

(** C9, as the code has it. A walk error that is not a missing path is
    reported by two calls of [printHandler].  With coloured output they
    give the line of the failure symbol and the path, followed by the line
    of the error text.  Without it no failure symbol is written, and the
    line of the error text still ends the report. *)
Theorem C9_error_report_lines :
  forall (green red : string -> string) (info : option FileInfo)
         (pathname : string) (err : error),
    os_IsNotExist err = false ->
    let printed := fst (Mgp.handlePathError info pathname err) in
    printed = [(pathname, Mgp.ErrorMatchMessage); (Error err, Mgp.TextMessage)] /\
    Mgp.render green red true printed = [red Mgp.KO ++ " " ++ pathname; Error err] /\
    (exists before, Mgp.render green red false printed = (before ++ [Error err])%list /\
                    forall l, In l before -> l <> red Mgp.KO ++ " " ++ pathname).
Proof.
  intros green red info pathname err H printed. subst printed.
  rewrite (handlePathError_printed info pathname err H). repeat split.
  exists []. split; [reflexivity | intros l []].
Qed.

Lemma C9_error_report_witness :
  Mgp.render Sample.green Sample.red true
    (fst (Mgp.handlePathError (Some (Sample.directory "locked")) "r/locked"
            (Runs.denied "r/locked")))
  = [Sample.red Mgp.KO ++ " r/locked"; "open r/locked: permission denied"].
Proof.
  apply (proj1 (proj2 (C9_error_report_lines Sample.green Sample.red
                         (Some (Sample.directory "locked")) "r/locked"
                         (Runs.denied "r/locked") eq_refl))).
Defined.

(** With coloured output the report has the shape the specification gives. *)
Example coloured_error_report :
  Spec.errorReport
    (Mgp.render Sample.green Sample.red true
       (fst (Mgp.handlePathError (Some (Sample.directory "locked")) "r/locked"
               (Runs.denied "r/locked"))))
    "r/locked" (Error (Runs.denied "r/locked")).
Proof. eexists. repeat split. Qed.

(** C9, as the specification words it, fails without coloured output: the
    report of an unreadable directory is the line of the error text alone. *)
Lemma C9_raw_report_has_no_path_line :
  ~ Spec.errorReport
      (Mgp.render Sample.green Sample.red false
         (fst (Mgp.handlePathError (Some (Sample.directory "locked")) "r/locked"
                 (Runs.denied "r/locked"))))
      "r/locked" (Error (Runs.denied "r/locked")).
Proof. intros [l [E _]]. cbn in E. discriminate E. Qed.

(** ** The worker: the reading loop *)

Lemma cutLine_none (s : string) :
  cutLine newline s = None -> linesOf s = ([], s).
Proof.
  induction s as [|c s IH]; simpl; intros H; [reflexivity|].
  destruct (Ascii.eqb c newline); [discriminate|].
  destruct (cutLine newline s) as [[l rest]|]; [discriminate|].
  rewrite IH by reflexivity. reflexivity.
Qed.

Lemma cutLine_some (s l rest : string) :
  cutLine newline s = Some (l, rest) ->
  linesOf s = (l :: fst (linesOf rest), snd (linesOf rest)).
Proof.
  revert l rest. induction s as [|c s IH]; simpl; intros l rest H; [discriminate|].
  destruct (Ascii.eqb c newline).
  - inversion H; subst. destruct (linesOf rest); reflexivity.
  - destruct (cutLine newline s) as [[l' rest']|]; [|discriminate].
    inversion H; subst. rewrite (IH l' rest eq_refl). reflexivity.
Qed.

(** On a file that is read to its end the loop stops after at most one
    iteration per line, with one call for the first line that matches. *)
Lemma scan_to_EOF (re : Regexp) (fullpath : string) :
  forall (fuel : nat) (s : string),
    List.length (fst (linesOf s)) < fuel ->
    Mgp.scan fuel (Some re) fullpath (mkFile s io_EOF)
    = Some (if existsb re (fst (linesOf s)) then [(fullpath, Mgp.MatchMessage)] else [],
            true).
Proof.
  induction fuel as [|k IH]; intros s Hlen; [inversion Hlen|].
  cbn [Mgp.scan]. unfold ReadBytes. cbn [data fail].
  destruct (cutLine newline s) as [[l rest]|] eqn:Hc.
  - rewrite (cutLine_some _ _ _ Hc) in *. cbn [fst existsb List.length] in *.
    destruct (re l); cbn [orb]; [reflexivity|].
    apply IH. apply Nat.succ_lt_mono. exact Hlen.
  - rewrite (cutLine_none _ Hc). reflexivity.
Qed.

(** The loop never calls [printHandler] twice. *)
Lemma scan_at_most_one_call (r : option Regexp) (fullpath : string) :
  forall (fuel : nat) (f : File) (calls : list Mgp.Call) (ok : bool),
    Mgp.scan fuel r fullpath f = Some (calls, ok) ->
    calls = [] \/ calls = [(fullpath, Mgp.MatchMessage)].
Proof.
  induction fuel as [|k IH]; intros f calls ok H; [discriminate|].
  cbn [Mgp.scan] in H.
  destruct (ReadBytes newline f) as [[line err] f'].
  destruct (match err with Some e => is_EOF e | None => false end).
  - inversion H. now left.
  - destruct r as [re|].
    + destruct (re line).
      * inversion H. now right.
      * exact (IH _ _ _ H).
    + inversion H. now left.
Qed.

(** With a nil [*regexp.Regexp] the first read that is not the end of the
    file leads to the call of [Match] on it. *)
Lemma scan_nil_regexp (fullpath : string) (f : File) (fuel : nat) :
  cutLine newline (data f) <> None \/ is_EOF (fail f) = false ->
  Mgp.scan (S fuel) None fullpath f = Some ([], false).
Proof.
  intros H. cbn [Mgp.scan]. unfold ReadBytes.
  destruct (cutLine newline (data f)) as [[l rest]|].
  - reflexivity.
  - destruct H as [H|H]; [contradiction|]. rewrite H. reflexivity.
Qed.

(** Reads that fail with another error than [io.EOF] are read again: the
    loop does not end unless the pattern matches what was read. *)
Lemma scan_failing_reads (re : Regexp) (fullpath : string) (e : error) :
  is_EOF e = false -> re "" = false ->
  forall fuel, Mgp.scan fuel (Some re) fullpath (mkFile "" e) = None.
Proof.
  intros He Hre. induction fuel as [|k IH]; [reflexivity|].
  cbn [Mgp.scan]. unfold ReadBytes. cbn. rewrite He, Hre. exact IH.
Qed.

(** A handler leaves everything but the queue, the events and the log as
    it is, and adds at most one event. *)
Lemma handler_receives green red Match Base os_Open (cfg : Mgp.Config)
    (s : Mgp.State) (e : Mgp.Entry) (q : list Mgp.Entry) (fuel : nat)
    (calls : list Mgp.Call) :
  Mgp.status s = Mgp.Running -> Mgp.wg s <> 0 -> Mgp.ch s = e :: q ->
  Mgp.handleEntry os_Open fuel (Mgp.r s) e = Some (calls, true) ->
  Mgp.step green red Match Base os_Open cfg (Mgp.Worker Mgp.CaseEntry fuel) s
  = Some (Mgp.emit green red calls (Mgp.set_ch q (Mgp.chClosed s) s)).
Proof.
  intros Hst Hwg Hch Hh. unfold Mgp.step, Mgp.handler. rewrite Hst.
  destruct (Mgp.wg s); [contradiction|]. rewrite Hch, Hh. reflexivity.
Qed.

(** C1, as the code has it. A handler that receives the entry of a
    regular file which opens and is read to its end consumes the entry and
    goes on.  It reports exactly one match when a line of the file that
    ends in a newline matches the pattern, and none when no line of the
    file matches: the pattern is tried on one line at a time, a match that
    spans a line boundary is not found. *)
Theorem C1_one_match_when_a_line_matches :
  forall green red Match Base (os_Open : string -> File + error) (cfg : Mgp.Config)
         (s : Mgp.State) (e : Mgp.Entry) (q : list Mgp.Entry) (re : Regexp)
         (content : string) (fuel : nat),
    Mgp.status s = Mgp.Running -> Mgp.wg s <> 0 ->
    Mgp.ch s = e :: q -> Mgp.r s = Some re ->
    Mode_IsRegular (Mode (Mgp.Info e)) = true ->
    os_Open (Mgp.Path e) = inl (mkFile content io_EOF) ->
    List.length (fst (linesOf content)) < fuel ->
    exists s',
      Mgp.step green red Match Base os_Open cfg (Mgp.Worker Mgp.CaseEntry fuel) s = Some s' /\
      Mgp.status s' = Mgp.Running /\ Mgp.ch s' = q /\
      (existsb re (fst (linesOf content)) = true ->
       Mgp.events s' = (Mgp.events s ++ [(Mgp.Path e, Mgp.MatchMessage)])%list) /\
      (existsb re (fst (linesOf content)) = false -> re (snd (linesOf content)) = false ->
       Mgp.events s' = Mgp.events s).
Proof.
  intros green red Match Base os_Open cfg s e q re content fuel
         Hst Hwg Hch Hr Hreg Hopen Hfuel.
  exists (Mgp.emit green red
            (if existsb re (fst (linesOf content))
             then [(Mgp.Path e, Mgp.MatchMessage)] else [])
            (Mgp.set_ch q (Mgp.chClosed s) s)).
  split.
  - apply (handler_receives green red Match Base os_Open cfg s e q fuel _ Hst Hwg Hch).
    unfold Mgp.handleEntry. rewrite Hreg, Hopen, Hr. cbn [negb].
    apply scan_to_EOF. exact Hfuel.
  - cbn. repeat split; try assumption.
    + intros H. rewrite H. reflexivity.
    + intros H _. rewrite H. apply app_nil_r.
Qed.

Lemma C1_one_match_witness :
  exists s',
    Runs.step (Mgp.mkConfig 2 Args.STD_EXC_DIRS 104857600) (Mgp.Worker Mgp.CaseEntry 4)
      (Runs.receiving (Some (Runs.literal "foo")) true (Runs.entry "r/twice.txt" 12))
    = Some s' /\
    Mgp.status s' = Mgp.Running /\ Mgp.ch s' = [] /\
    (existsb (Runs.literal "foo") (fst (linesOf (unlines ["foo"; "bar"; "foo"]))) = true ->
     Mgp.events s' = [("r/twice.txt", Mgp.MatchMessage)]) /\
    (existsb (Runs.literal "foo") (fst (linesOf (unlines ["foo"; "bar"; "foo"]))) = false ->
     Runs.literal "foo" (snd (linesOf (unlines ["foo"; "bar"; "foo"]))) = false ->
     Mgp.events s' = []).
Proof.
  apply (C1_one_match_when_a_line_matches Sample.green Sample.red Sample.Match Sample.Base
           Runs.os_Open (Mgp.mkConfig 2 Args.STD_EXC_DIRS 104857600)
           (Runs.receiving (Some (Runs.literal "foo")) true (Runs.entry "r/twice.txt" 12))
           (Runs.entry "r/twice.txt" 12) [] (Runs.literal "foo")
           (unlines ["foo"; "bar"; "foo"]) 4).
  - reflexivity.
  - discriminate.
  - reflexivity.
  - reflexivity.
  - reflexivity.
  - reflexivity.
  - cbn. lia.
Defined.

(** C1, as the specification words it, fails on a file whose content
    matches the pattern only across a line boundary: the text "a", newline,
    "b" is in the file, no line holds it, and no match is reported. *)
Lemma C1_match_across_lines_is_not_reported :
  let re := Runs.literal ("a" ++ Runs.nl ++ "b") in
  re (unlines ["a"; "b"]) = true /\
  Runs.handleEntry 5 (Some re) (Runs.entry "r/across.txt" 4) = Some ([], true).
Proof. split; reflexivity. Qed.

(** The last line of a file is not tried when no newline ends it. *)
Example last_line_without_newline_is_not_tried :
  Runs.literal "foo" ("bar" ++ Runs.nl ++ "foo") = true /\
  snd (linesOf ("bar" ++ Runs.nl ++ "foo")) = "foo" /\
  Runs.handleEntry 5 (Some (Runs.literal "foo")) (Runs.entry "r/last.txt" 7) = Some ([], true).
Proof. repeat split; reflexivity. Qed.

(** ** Steps of the run *)

Ltac step_inv H :=
  unfold Mgp.step, Mgp.onSignal, Mgp.onSendToken, Mgp.onWalkStep, Mgp.onCloseCh,
         Mgp.onJoin, Mgp.onFinish, Mgp.handler, Mgp.applyVisit in H;
  repeat match type of H with
         | context [match ?x with _ => _ end] => destruct x eqn:?
         end;
  try discriminate H; inversion H; subst; clear H.

(** No step assigns the compiled pattern. *)
Lemma step_keeps_r green red Match Base os_Open (cfg : Mgp.Config) (a : Mgp.Action)
    (s s' : Mgp.State) :
  Mgp.step green red Match Base os_Open cfg a s = Some s' -> Mgp.r s' = Mgp.r s.
Proof. intros H. step_inv H; reflexivity. Qed.

Lemma reachable_keeps_r green red Match Base os_Open (cfg : Mgp.Config)
    (s0 s : Mgp.State) :
  Mgp.reachable green red Match Base os_Open cfg s0 s -> Mgp.r s = Mgp.r s0.
Proof.
  induction 1 as [|s a s' _ IH Hstep]; [reflexivity|].
  rewrite (step_keeps_r _ _ _ _ _ _ _ _ _ Hstep). exact IH.
Qed.

(** The only assignment to [stopWalk] is the one of the signal goroutine,
    and it assigns [true]. *)
Lemma step_stopWalk green red Match Base os_Open (cfg : Mgp.Config) (a : Mgp.Action)
    (s s' : Mgp.State) :
  Mgp.step green red Match Base os_Open cfg a s = Some s' ->
  Mgp.stopWalk s' = Mgp.stopWalk s \/
  (a = Mgp.Signal /\ Mgp.sigWaiting s = true /\
   Mgp.stopWalk s' = true /\ Mgp.sigWaiting s' = false).
Proof. intros H. step_inv H; auto. Qed.

(** A step of a handler adds at most one event, a match for the entry it
    received. *)
Lemma handler_adds_at_most_one_event green red Match Base os_Open (cfg : Mgp.Config)
    (sel : Mgp.Select) (fuel : nat) (s s' : Mgp.State) :
  Mgp.step green red Match Base os_Open cfg (Mgp.Worker sel fuel) s = Some s' ->
  Mgp.events s' = Mgp.events s \/
  exists e q, Mgp.ch s = e :: q /\
              Mgp.events s' = (Mgp.events s ++ [(Mgp.Path e, Mgp.MatchMessage)])%list.
Proof.
  intros H. unfold Mgp.step, Mgp.handler in H.
  destruct (Mgp.status s); try discriminate.
  destruct (Mgp.wg s) as [|live]; [discriminate|].
  destruct sel.
  - destruct (Mgp.closeSignalChan s); inversion H; now left.
  - destruct (Mgp.ch s) as [|e q] eqn:Hch.
    + destruct (Mgp.chClosed s); inversion H; now left.
    + destruct (Mgp.handleEntry os_Open fuel (Mgp.r s) e) as [[calls ok]|] eqn:Hh;
        [|discriminate].
      assert (Hc : calls = [] \/ calls = [(Mgp.Path e, Mgp.MatchMessage)]).
      { unfold Mgp.handleEntry in Hh.
        destruct (negb (Mode_IsRegular (Mode (Mgp.Info e)))); [inversion Hh; now left|].
        destruct (os_Open (Mgp.Path e)); [|inversion Hh; now left].
        eapply scan_at_most_one_call; exact Hh. }
      destruct ok; inversion H; subst; cbn;
        (destruct Hc as [-> | ->]; [left; apply app_nil_r | right; eauto]).
  - destruct (Mgp.closeSignalChan s); [|discriminate].
    destruct (Mgp.ch s); [|discriminate].
    destruct (Mgp.chClosed s); inversion H; now left.
Qed.

(** C3, on the code. [-ctx] is accepted and stored, and [Run] has no
    argument that could take it: on a file with two matching lines the run
    started from the parsed command line reports one match and returns. *)
Theorem C3_ctx_run_reports_one_match_for_two_matching_lines :
  exists p cfg s0 s,
    Args.ParseArgs Atoi ["-ctx"; "-w"; "2"; "foo"; "r"] = Returns p /\
    Args.matchContext (Args.flags p) = true /\
    Runs.Run (Args.workers (Args.flags p)) (Args.icase (Args.flags p))
             (negb (Args.nocolor (Args.flags p))) Runs.treeTwice (Args.pattern p)
             (Args.GetExcludedDirs (Args.flags p)) (Args.limitBytes (Args.flags p))
    = Returns (cfg, s0) /\
    Runs.exec cfg
      [Mgp.WalkStep; Mgp.WalkStep; Mgp.CloseCh; Mgp.Worker Mgp.CaseEntry 4;
       Mgp.Worker Mgp.CaseEntry 0; Mgp.Worker Mgp.CaseEntry 0; Mgp.Join; Mgp.Finish] s0
    = Some s /\
    Mgp.status s = Mgp.Returned /\
    Mgp.events s = [("r/twice.txt", Mgp.MatchMessage)] /\
    List.length (filter (Runs.literal "foo") (fst (linesOf (unlines ["foo"; "bar"; "foo"])))) = 2.
Proof.
  do 4 eexists.
  repeat (split; [vm_compute; reflexivity|]).
  vm_compute. reflexivity.
Qed.

(** C7, on the code. A file that cannot be opened is skipped.  A file
    that opens and whose reads fail is not: the failed read is made again
    and the iteration of the handler never ends, or, when the bytes read
    before the failure match, a match is reported.  The handler of the
    older program skips a file it cannot read. *)
Theorem C7_failed_read_is_not_skipped :
  Runs.handleEntry 5 (Some (Runs.literal "foo")) (Runs.entry "r/gone.txt" 3)
  = Some ([], true) /\
  (forall fuel,
     Runs.step (Mgp.mkConfig 2 Args.STD_EXC_DIRS 104857600) (Mgp.Worker Mgp.CaseEntry fuel)
       (Runs.receiving (Some (Runs.literal "foo")) true (Runs.entry "r/bad.txt" 0))
     = None) /\
  Runs.handleEntry 5 (Some (Runs.literal "foo")) (Runs.entry "r/half.txt" 3)
  = Some ([("r/half.txt", Mgp.MatchMessage)], true) /\
  Legacy.handleEntry Sample.green Runs.os_Stat Runs.os_ReadFile
    (Some (Runs.literal "foo")) "r/bad.txt" = ([], true).
Proof.
  repeat split.
  intros fuel. unfold Runs.step, Mgp.step, Mgp.handler. cbn.
  unfold Mgp.handleEntry. cbn.
  rewrite scan_failing_reads; reflexivity.
Qed.

(** ** The compiled pattern *)

(** C10. When the pattern does not compile, [Run] keeps a nil pointer and
    goes on as if nothing had happened: nothing is written, the handlers
    are started.  The pointer is never assigned again, so in every state of
    the run a handler that receives the entry of a regular file which
    opens, and whose first read is not the end of the file, calls [Match]
    on nil: the process panics, no event is reported.  The older program
    does the same. *)
Theorem C10_invalid_pattern_gives_nil_regexp :
  forall (Compile : string -> Regexp + error) (caseInsensitive : bool)
         (pattern : string) (err : error),
    Compile (Mgp.effectivePattern caseInsensitive pattern) = inr err ->
    (forall green red Match Base (os_Open : string -> File + error)
            (workers : Z) (colors : bool) (root : Mgp.Tree) (exc : list string) (limit : Z),
       (0 <= workers)%Z ->
       exists cfg s0,
         Mgp.Run Compile workers caseInsensitive colors root pattern exc limit
         = Returns (cfg, s0) /\
         Mgp.r s0 = None /\ Mgp.status s0 = Mgp.Running /\
         Mgp.events s0 = [] /\ Mgp.log s0 = [] /\ Mgp.wg s0 = Z.to_nat workers /\
         forall s e q file fuel,
           Mgp.reachable green red Match Base os_Open cfg s0 s ->
           Mgp.status s = Mgp.Running -> Mgp.wg s <> 0 -> Mgp.ch s = e :: q ->
           Mode_IsRegular (Mode (Mgp.Info e)) = true ->
           os_Open (Mgp.Path e) = inl file ->
           cutLine newline (data file) <> None \/ is_EOF (fail file) = false ->
           exists s',
             Mgp.step green red Match Base os_Open cfg (Mgp.Worker Mgp.CaseEntry (S fuel)) s
             = Some s' /\
             Mgp.status s'
             = Mgp.Panicked "invalid memory address or nil pointer dereference" /\
             Mgp.events s' = Mgp.events s /\ Mgp.log s' = Mgp.log s) /\
    Legacy.compiled Compile caseInsensitive pattern = None /\
    (forall green (os_Stat : string -> FileInfo + error)
            (os_ReadFile : string -> string + error) filepath fi filedata,
       os_Stat filepath = inl fi -> Mode_IsRegular (Mode fi) = true ->
       os_ReadFile filepath = inl filedata ->
       Legacy.handleEntry green os_Stat os_ReadFile
         (Legacy.compiled Compile caseInsensitive pattern) filepath = ([], false)).
Proof.
  intros Compile ci pattern err Hc.
  assert (HL : Legacy.compiled Compile ci pattern = None).
  { unfold Legacy.compiled. unfold Mgp.effectivePattern in Hc. rewrite Hc. reflexivity. }
  repeat split.
  - intros green red Match Base os_Open workers colors root exc limit Hw.
    unfold Mgp.Run. destruct (Z.ltb_spec workers 0) as [Hneg|_]; [lia|].
    do 2 eexists. split; [reflexivity|].
    cbn [Mgp.r Mgp.status Mgp.events Mgp.log Mgp.wg].
    assert (Hr0 : Mgp.compiled Compile ci pattern = None).
    { unfold Mgp.compiled. rewrite Hc. reflexivity. }
    repeat split; try assumption.
    intros s e q file fuel Hreach Hst Hwg Hch Hreg Hopen Hread.
    pose proof (reachable_keeps_r _ _ _ _ _ _ _ _ Hreach) as Hr.
    cbn [Mgp.r] in Hr. rewrite Hr0 in Hr.
    unfold Mgp.step, Mgp.handler. rewrite Hst.
    destruct (Mgp.wg s); [contradiction|]. rewrite Hch.
    unfold Mgp.handleEntry. rewrite Hreg, Hopen, Hr. cbn [negb].
    rewrite scan_nil_regexp by assumption.
    eexists. split; [reflexivity|]. cbn. repeat split; apply app_nil_r.
  - exact HL.
  - intros green os_Stat os_ReadFile filepath fi filedata Hs Hreg Hrd.
    rewrite HL. unfold Legacy.handleEntry. rewrite Hs, Hreg, Hrd. reflexivity.
Qed.

Lemma C10_invalid_pattern_witness :
  exists cfg s0,
    Runs.Run 2 false true Runs.treeTwice "(" Args.STD_EXC_DIRS 104857600 = Returns (cfg, s0) /\
    Mgp.r s0 = None /\ Mgp.status s0 = Mgp.Running /\ Mgp.events s0 = [] /\ Mgp.log s0 = [].
Proof.
  destruct (proj1 (C10_invalid_pattern_gives_nil_regexp Sample.Compile false "("
                     (errorString "error parsing regexp: missing closing ): `(`") eq_refl)
              Sample.green Sample.red Sample.Match Sample.Base Runs.os_Open
              2%Z true Runs.treeTwice Args.STD_EXC_DIRS 104857600%Z ltac:(lia))
    as [cfg [s0 [H1 [H2 [H3 [H4 [H5 _]]]]]]].
  exists cfg, s0. repeat split; assumption.
Defined.

(** The run on the pattern "(": the first entry received ends it. *)
Example run_on_an_invalid_pattern_panics :
  match Runs.Run 2 false true Runs.treeTwice "(" Args.STD_EXC_DIRS 104857600 with
  | Returns (cfg, s0) =>
      match Runs.exec cfg [Mgp.WalkStep; Mgp.WalkStep; Mgp.Worker Mgp.CaseEntry 1] s0 with
      | Some s =>
          Mgp.status s = Mgp.Panicked "invalid memory address or nil pointer dereference" /\
          Mgp.events s = [] /\ Mgp.log s = []
      | None => False
      end
  | _ => False
  end.
Proof. vm_compute. repeat split. Qed.

(** ** The stop condition *)

Lemma states_head green red Match Base os_Open (cfg : Mgp.Config)
    (sched : list Mgp.Action) (s : Mgp.State) :
  exists tl, Mgp.states green red Match Base os_Open cfg sched s = s :: tl.
Proof. destruct sched; simpl; eauto. Qed.

Lemma step_stop_stays green red Match Base os_Open (cfg : Mgp.Config) (a : Mgp.Action)
    (s s' : Mgp.State) :
  Mgp.step green red Match Base os_Open cfg a s = Some s' ->
  Mgp.stopWalk s = true -> Mgp.stopWalk s' = true.
Proof.
  intros H Ht. destruct (step_stopWalk _ _ _ _ _ _ _ _ _ H) as [E|[_ [_ [E _]]]].
  - now rewrite E.
  - exact E.
Qed.

Lemma flips_cons (b b' : bool) (l : list bool) :
  Mgp.flips (b :: b' :: l) = (if negb b && b' then 1 else 0) + Mgp.flips (b' :: l).
Proof. reflexivity. Qed.

Lemma resets_cons (b b' : bool) (l : list bool) :
  Mgp.resets (b :: b' :: l) = (if b && negb b' then 1 else 0) + Mgp.resets (b' :: l).
Proof. reflexivity. Qed.

Lemma flips_resets_along_a_schedule green red Match Base os_Open (cfg : Mgp.Config) :
  forall (sched : list Mgp.Action) (s : Mgp.State),
    let flags := map Mgp.stopWalk (Mgp.states green red Match Base os_Open cfg sched s) in
    Mgp.resets flags = 0 /\
    Mgp.flips flags <= (if Mgp.stopWalk s then 0 else 1).
Proof.
  induction sched as [|a sched IH]; intros s; cbn zeta.
  - simpl. split; [reflexivity | destruct (Mgp.stopWalk s); lia].
  - cbn [Mgp.states].
    destruct (Mgp.step green red Match Base os_Open cfg a s) as [s'|] eqn:Hstep.
    + destruct (states_head green red Match Base os_Open cfg sched s') as [tl Htl].
      specialize (IH s'). cbn zeta in IH. rewrite Htl in *.
      cbn [map] in *. rewrite flips_cons, resets_cons.
      destruct IH as [IHr IHf]. rewrite IHr.
      destruct (Mgp.stopWalk s) eqn:Hs.
      * rewrite (step_stop_stays _ _ _ _ _ _ _ _ _ Hstep Hs) in *.
        cbn [negb andb Nat.add]. split; [reflexivity | exact IHf].
      * destruct (Mgp.stopWalk s'); cbn [negb andb Nat.add]; split;
          try reflexivity; lia.
    + simpl. split; [reflexivity | destruct (Mgp.stopWalk s); lia].
Qed.

(** C8. [stopWalk] is false when the walk starts.  Every step of the run,
    whoever takes it, leaves it as it is or sets it to true, so once true
    it stays true; along any schedule it goes from false to true at most
    once and never from true to false. *)
Theorem C8_stopWalk_is_monotonic :
  forall green red Match Base (os_Open : string -> File + error)
         (Compile : string -> Regexp + error)
         (workers : Z) (caseInsensitive colors : bool) (root : Mgp.Tree)
         (pattern : string) (exc : list string) (limit : Z)
         (cfg : Mgp.Config) (s0 : Mgp.State),
    Mgp.Run Compile workers caseInsensitive colors root pattern exc limit
    = Returns (cfg, s0) ->
    Mgp.stopWalk s0 = false /\
    (forall s a s',
       Mgp.reachable green red Match Base os_Open cfg s0 s ->
       Mgp.step green red Match Base os_Open cfg a s = Some s' ->
       Mgp.stopWalk s = true -> Mgp.stopWalk s' = true) /\
    (forall sched,
       let flags := map Mgp.stopWalk (Mgp.states green red Match Base os_Open cfg sched s0) in
       Mgp.flips flags <= 1 /\ Mgp.resets flags = 0).
Proof.
  intros green red Match Base os_Open Compile workers ci colors root pattern exc limit
         cfg s0 HRun.
  assert (H0 : Mgp.stopWalk s0 = false).
  { unfold Mgp.Run in HRun. destruct (workers <? 0)%Z; [discriminate|].
    inversion HRun; subst. reflexivity. }
  repeat split.
  - exact H0.
  - intros s a s' _ Hstep Ht. exact (step_stop_stays _ _ _ _ _ _ _ _ _ Hstep Ht).
  - destruct (flips_resets_along_a_schedule green red Match Base os_Open cfg sched s0)
      as [_ Hf]. rewrite H0 in Hf. exact Hf.
  - apply (flips_resets_along_a_schedule green red Match Base os_Open cfg sched s0).
Qed.

Lemma C8_stopWalk_witness :
  exists cfg s0,
    Runs.Run 2 false true Runs.treeTwice "foo" Args.STD_EXC_DIRS 104857600 = Returns (cfg, s0) /\
    Mgp.stopWalk s0 = false /\
    let flags :=
      map Mgp.stopWalk
        (Mgp.states Sample.green Sample.red Sample.Match Sample.Base Runs.os_Open cfg
           [Mgp.WalkStep; Mgp.Signal; Mgp.SendToken; Mgp.Signal; Mgp.WalkStep; Mgp.CloseCh] s0) in
    Mgp.flips flags <= 1 /\ Mgp.resets flags = 0.
Proof.
  do 2 eexists. split; [reflexivity|].
  pose proof (C8_stopWalk_is_monotonic Sample.green Sample.red Sample.Match Sample.Base
                Runs.os_Open Sample.Compile 2%Z false true Runs.treeTwice "foo"
                Args.STD_EXC_DIRS 104857600%Z _ _ eq_refl) as [H0 [_ Hs]].
  split; [exact H0|].
  exact (Hs [Mgp.WalkStep; Mgp.Signal; Mgp.SendToken; Mgp.Signal; Mgp.WalkStep; Mgp.CloseCh]).
Defined.

(** A run that is interrupted: the flag flips once, the second signal
    changes nothing, the walk stops at its next call, and the run ends with
    the line "Ended by user". *)
Example interrupted_run :
  match Runs.Run 2 false true Runs.treeTwice "foo" Args.STD_EXC_DIRS 104857600 with
  | Returns (cfg, s0) =>
      let sched := [Mgp.WalkStep; Mgp.Signal; Mgp.SendToken; Mgp.Signal; Mgp.SendToken;
                    Mgp.WalkStep; Mgp.CloseCh; Mgp.Worker Mgp.CaseClose 0;
                    Mgp.Worker Mgp.CaseClose 0; Mgp.Join; Mgp.Finish] in
      map Mgp.stopWalk
        (Mgp.states Sample.green Sample.red Sample.Match Sample.Base Runs.os_Open cfg sched s0)
      = [false; false; true; true; true; true; true; true; true; true; true; true] /\
      match Runs.exec cfg sched s0 with
      | Some s => Mgp.status s = Mgp.Returned /\ Mgp.ch s = [] /\ Mgp.log s = ["Ended by user"]
      | None => False
      end
  | _ => False
  end.
Proof. vm_compute. repeat split. Qed.

(** ** The walker: errors *)

(** C4, as the code has it. While the walk is not stopped, a directory
    that cannot be read, for another reason than its absence, is reported
    by an error event and the walk goes on with the next entry of the
    parent, leaving out the entries of that directory only; when it is the
    root, the walk ends normally.  A path that does not exist, the root or
    any path met later, ends the whole run at once: "Invalid path" is
    written and the process exits with status 1, without an error event. *)
Theorem C4_unreadable_directory_is_skipped_and_missing_path_is_fatal :
  forall green red Match Base (os_Open : string -> File + error)
         (cfg : Mgp.Config) (s : Mgp.State),
    Mgp.status s = Mgp.Running -> Mgp.stopWalk s = false ->
    (forall p info e kids,
       IsDir info = true -> os_IsNotExist e = false ->
       let report := [(p, Mgp.ErrorMatchMessage); (Error e, Mgp.TextMessage)] in
       (forall ts rest,
          Mgp.phase s = Mgp.Walking (Mgp.InDirs ((Mgp.Node p info (Some e) kids :: ts) :: rest)) ->
          exists s',
            Mgp.step green red Match Base os_Open cfg Mgp.WalkStep s = Some s' /\
            Mgp.status s' = Mgp.Running /\
            Mgp.phase s' = Mgp.Walking (Mgp.settle (ts :: rest)) /\
            Mgp.events s' = (Mgp.events s ++ report)%list /\ Mgp.ch s' = Mgp.ch s) /\
       (Mgp.phase s = Mgp.Walking (Mgp.AtRoot (Mgp.Node p info (Some e) kids)) ->
        exists s',
          Mgp.step green red Match Base os_Open cfg Mgp.WalkStep s = Some s' /\
          Mgp.status s' = Mgp.Running /\
          Mgp.phase s' = Mgp.Walking (Mgp.WalkReturned None) /\
          Mgp.events s' = (Mgp.events s ++ report)%list /\ Mgp.ch s' = Mgp.ch s)) /\
    (forall t ts rest e,
       Mgp.phase s = Mgp.Walking (Mgp.AtRoot t) \/
       Mgp.phase s = Mgp.Walking (Mgp.InDirs ((t :: ts) :: rest)) ->
       Mgp.walkError t = Some e -> os_IsNotExist e = true ->
       exists s',
         Mgp.step green red Match Base os_Open cfg Mgp.WalkStep s = Some s' /\
         Mgp.status s' = Mgp.Exited 1 /\
         Mgp.events s' = Mgp.events s /\ Mgp.ch s' = Mgp.ch s /\
         Mgp.log s' = (Mgp.log s ++ ["Invalid path"])%list).
Proof.
  intros green red Match Base os_Open cfg s Hst Hstop. split.
  - intros p info e kids Hdir Hne report. subst report. split.
    + intros ts rest Hph.
      unfold Mgp.step, Mgp.onWalkStep. rewrite Hst, Hph, Hstop.
      unfold Mgp.visit, Mgp.walkFn, Mgp.handlePathError, Mgp.applyVisit.
      cbn [Mgp.pathOf Mgp.infoOf Mgp.walkError]. rewrite Hdir, Hne. cbn.
      eexists. split; [reflexivity|]. cbn.
      unfold Mgp.afterEntry, Mgp.descend, Mgp.goesOn. cbn. rewrite Hdir.
      repeat split; try assumption.
    + intros Hph.
      unfold Mgp.step, Mgp.onWalkStep. rewrite Hst, Hph, Hstop.
      unfold Mgp.visit, Mgp.walkFn, Mgp.handlePathError, Mgp.applyVisit.
      cbn [Mgp.pathOf Mgp.infoOf Mgp.walkError]. rewrite Hdir, Hne. cbn.
      eexists. split; [reflexivity|]. cbn.
      repeat split; try assumption.
  - intros t ts rest e Hph He Hne.
    assert (Hv : Mgp.visit Match Base false (Mgp.exludedDirs cfg) (Mgp.limitMb cfg) t
                 = Mgp.mkVisit [] None (Exits 1 ["Invalid path"])).
    { unfold Mgp.visit, Mgp.walkFn, Mgp.handlePathError. rewrite He, Hne. reflexivity. }
    unfold Mgp.step, Mgp.onWalkStep. rewrite Hst.
    destruct Hph as [Hph|Hph]; rewrite Hph, Hstop, Hv; unfold Mgp.applyVisit; cbn;
      (eexists; split; [reflexivity|]); cbn; rewrite ?app_nil_r; repeat split.
Qed.

Lemma C4_unreadable_directory_witness :
  exists s',
    Runs.step (Mgp.mkConfig 2 Args.STD_EXC_DIRS 104857600) Mgp.WalkStep
      (Runs.walkingIn
         [[Mgp.Node "r/locked" (Sample.directory "locked") (Some (Runs.denied "r/locked"))
             [Mgp.Node "r/locked/in.txt" (Sample.regular "in.txt" 4) None []];
           Mgp.Node "r/b.txt" (Sample.regular "b.txt" 4) None []]])
    = Some s' /\
    Mgp.status s' = Mgp.Running /\
    Mgp.phase s'
    = Mgp.Walking (Mgp.InDirs [[Mgp.Node "r/b.txt" (Sample.regular "b.txt" 4) None []]]) /\
    Mgp.events s'
    = [("r/locked", Mgp.ErrorMatchMessage);
       ("open r/locked: permission denied", Mgp.TextMessage)] /\
    Mgp.ch s' = [].
Proof.
  exact (proj1 (proj1 (C4_unreadable_directory_is_skipped_and_missing_path_is_fatal
                   Sample.green Sample.red Sample.Match Sample.Base Runs.os_Open
                   (Mgp.mkConfig 2 Args.STD_EXC_DIRS 104857600)
                   (Runs.walkingIn
                      [[Mgp.Node "r/locked" (Sample.directory "locked")
                          (Some (Runs.denied "r/locked"))
                          [Mgp.Node "r/locked/in.txt" (Sample.regular "in.txt" 4) None []];
                        Mgp.Node "r/b.txt" (Sample.regular "b.txt" 4) None []]])
                   eq_refl eq_refl)
            "r/locked" (Sample.directory "locked") (Runs.denied "r/locked")
            [Mgp.Node "r/locked/in.txt" (Sample.regular "in.txt" 4) None []]
            eq_refl eq_refl)
           [Mgp.Node "r/b.txt" (Sample.regular "b.txt" 4) None []] [] eq_refl).
Defined.

(** C4, as the specification words it, fails on an entry that has vanished
    between the listing of its directory and its [Lstat]: the path is not
    the root, yet the run ends there with status 1, no error event was
    reported and the file after it was never visited. *)
Lemma C4_vanished_entry_ends_the_run :
  match Runs.Run 2 false true Runs.treeVanished "foo" Args.STD_EXC_DIRS 104857600 with
  | Returns (cfg, s0) =>
      match Runs.exec cfg [Mgp.WalkStep; Mgp.WalkStep] s0 with
      | Some s =>
          Mgp.status s = Mgp.Exited 1 /\ Mgp.events s = [] /\ Mgp.ch s = [] /\
          Mgp.log s = ["Invalid path"] /\
          Runs.step cfg Mgp.WalkStep s = None
      | None => False
      end
  | _ => False
  end.
Proof. vm_compute. repeat split. Qed.

(** An entry whose [Lstat] fails for another reason is reported, and then
    the walk function dereferences the nil [os.FileInfo]. *)
Example lstat_failure_panics :
  match Runs.Run 2 false true Runs.treeNoAccess "foo" Args.STD_EXC_DIRS 104857600 with
  | Returns (cfg, s0) =>
      match Runs.exec cfg [Mgp.WalkStep; Mgp.WalkStep] s0 with
      | Some s =>
          Mgp.status s = Mgp.Panicked "invalid memory address or nil pointer dereference" /\
          Mgp.events s = [("r/a.txt", Mgp.ErrorMatchMessage);
                          ("lstat r/a.txt: permission denied", Mgp.TextMessage)]
      | None => False
      end
  | _ => False
  end.
Proof. vm_compute. repeat split. Qed.

(** The whole walk of a tree with an unreadable directory: its file is
    left out, the file next to it is enqueued and reported. *)
Example run_over_an_unreadable_directory :
  match Runs.Run 1 false true Runs.treeDenied "foo" Args.STD_EXC_DIRS 104857600 with
  | Returns (cfg, s0) =>
      match Runs.exec cfg [Mgp.WalkStep; Mgp.WalkStep; Mgp.WalkStep; Mgp.CloseCh;
                           Mgp.Worker Mgp.CaseEntry 3; Mgp.Worker Mgp.CaseEntry 0;
                           Mgp.Join; Mgp.Finish] s0 with
      | Some s =>
          Mgp.status s = Mgp.Returned /\
          Mgp.events s = [("r/locked", Mgp.ErrorMatchMessage);
                          ("open r/locked: permission denied", Mgp.TextMessage);
                          ("r/b.txt", Mgp.MatchMessage)]
      | None => False
      end
  | _ => False
  end.
Proof. vm_compute. repeat split. Qed.

(* ================================================================== *)
(** * Further properties of the code *)
(* ================================================================== *)

(** ** The exclusion list *)

Lemma revstr_append (s a t : string) : revstr a s ++ t = revstr (a ++ t) s.
Proof.
  revert a. induction s as [|c s IH]; intros a; simpl; [reflexivity|].
  rewrite IH. reflexivity.
Qed.

Lemma splitFrom_not_nil (sep s : string) (skip : nat) (cur : string) :
  splitFrom sep s skip cur <> [].
Proof.
  revert skip cur. induction s as [|c s IH]; intros skip cur; cbn [splitFrom];
    [discriminate|].
  destruct skip; [|apply IH].
  destruct (HasPrefix (String c s) sep); [discriminate | apply IH].
Qed.

Lemma concat_cons (sep x : string) (l : list string) :
  l <> [] -> String.concat sep (x :: l) = x ++ sep ++ String.concat sep l.
Proof. destruct l; [contradiction | reflexivity]. Qed.

Lemma Join_splitFrom (s cur : string) :
  Join (splitFrom "," s 0 cur) "," = revstr "" cur ++ s.
Proof.
  unfold Join. revert cur. induction s as [|c s IH]; intros cur.
  - simpl. now rewrite append_empty_r.
  - cbn [splitFrom HasPrefix String.length Nat.sub]. rewrite HasPrefix_empty, andb_true_r.
    destruct (Ascii.eqb_spec c ",") as [->|Hc].
    + rewrite concat_cons by apply splitFrom_not_nil.
      rewrite IH. reflexivity.
    + rewrite IH. rewrite !revstr_append. reflexivity.
Qed.

Lemma length_splitFrom (s cur : string) :
  List.length (splitFrom "," s 0 cur) = S (CountByte "," s).
Proof.
  revert cur. induction s as [|c s IH]; intros cur; [reflexivity|].
  cbn [splitFrom HasPrefix String.length Nat.sub CountByte].
  rewrite HasPrefix_empty, andb_true_r.
  destruct (Ascii.eqb c ","); cbn [List.length]; rewrite IH; reflexivity.
Qed.

(** X1. With a non-empty [-exc] value the exclusion list is the default
    list followed by the fields of the value: joining the fields with
    commas gives the value back, and there is one field more than there
    are commas, so a doubled or trailing comma adds an empty glob. *)
Theorem X1_user_globs_round_trip :
  forall f : Args.Flags,
    Args.exclude f <> "" ->
    exists user,
      Args.GetExcludedDirs f = (Args.STD_EXC_DIRS ++ user)%list /\
      Join user "," = Args.exclude f /\
      List.length user = S (CountByte "," (Args.exclude f)).
Proof.
  intros f NE. exists (Split (Args.exclude f) ","). unfold Args.GetExcludedDirs.
  destruct (String.eqb_spec (Args.exclude f) "") as [E|_]; [contradiction|].
  unfold Split. repeat split.
  - rewrite Join_splitFrom. reflexivity.
  - apply length_splitFrom.
Qed.

Lemma X1_user_globs_witness :
  exists user,
    Args.GetExcludedDirs (Args.mkFlags 100 false false "build,,*.log," 104857600 false)
    = (Args.STD_EXC_DIRS ++ user)%list /\
    Join user "," = "build,,*.log," /\
    List.length user = 4.
Proof.
  apply (X1_user_globs_round_trip
           (Args.mkFlags 100 false false "build,,*.log," 104857600 false)).
  discriminate.
Defined.

(** ** The command line, in general *)

Lemma parseOne_consumes (V : Type) (ParseInt : string -> option Z) (fs : FlagSet V)
    (args : list string) (v : V) :
  match parseOne ParseInt fs args v with
  | Seen args' _ => exists pre, pre <> [] /\ args = (pre ++ args')%list
  | Finished _ rest => exists pre, args = (pre ++ rest)%list
  | _ => True
  end.
Proof.
  unfold parseOne. destruct args as [|s args']; [exists []; reflexivity|].
  destruct s as [|c0 [|c1 r1]]; try (exists []; reflexivity).
  destruct (negb (Ascii.eqb c0 "-")); [exists []; reflexivity|].
  destruct (Ascii.eqb c1 "-" && (String.length (String c0 (String c1 r1)) =? 2)%nat);
    [eexists [_]; reflexivity|].
  destruct (if Ascii.eqb c1 "-" then r1 else String c1 r1) as [|n0 nm]; [exact I|].
  destruct (Ascii.eqb n0 "-" || Ascii.eqb n0 "="); [exact I|].
  destruct (splitNameValue (String n0 nm)) as [name value].
  destruct (formal fs name) as [[set|set|set]|].
  - destruct value as [val|].
    + destruct (ParseBool val); [|exact I]. eexists [_]. split; [discriminate|reflexivity].
    + eexists [_]. split; [discriminate|reflexivity].
  - destruct value as [val|].
    + destruct (ParseInt val); [|exact I]. eexists [_]. split; [discriminate|reflexivity].
    + destruct args' as [|val args'']; [exact I|].
      destruct (ParseInt val); [|exact I]. eexists [_; _]. split; [discriminate|reflexivity].
  - destruct value as [val|].
    + eexists [_]. split; [discriminate|reflexivity].
    + destruct args' as [|val args'']; [exact I|].
      eexists [_; _]. split; [discriminate|reflexivity].
  - destruct (String.eqb name "help" || String.eqb name "h"); exact I.
Qed.

Lemma parseLoop_outcome (V : Type) (ParseInt : string -> option Z) (fs : FlagSet V) :
  forall (fuel : nat) (args : list string) (v : V),
    match parseLoop ParseInt fuel fs args v with
    | Returns (_, rest) => exists pre, args = (pre ++ rest)%list
    | Exits code out => (code = 0 \/ code = 2)%Z /\ out = []
    | Panics _ => False
    end.
Proof.
  induction fuel as [|k IH]; intros args v; cbn [parseLoop].
  - exists []. reflexivity.
  - pose proof (parseOne_consumes V ParseInt fs args v) as H1.
    destruct (parseOne ParseInt fs args v) as [args' v'|rest| |].
    + destruct H1 as [pre [_ ->]]. specialize (IH args' v').
      destruct (parseLoop ParseInt k fs args' v') as [[v2 rest]|code out|reason].
      * destruct IH as [pre' ->]. exists (pre ++ pre')%list. now rewrite app_assoc.
      * exact IH.
      * exact IH.
    + exact H1.
    + split; [now right | reflexivity].
    + split; [now left | reflexivity].
Qed.

(** X2. [ParseArgs] never panics and exits with status 0 or 2 only.  When
    it returns, the pattern and the start path are two arguments of the
    command line that follow each other: the first two that the flag
    parser left over. *)
Theorem X2_ParseArgs_outcomes :
  forall (ParseInt : string -> option Z) (args : list string),
    match Args.ParseArgs ParseInt args with
    | Returns p =>
        exists pre post,
          args = (pre ++ Args.pattern p :: Args.startpath p :: post)%list
    | Exits code _ => (code = 0 \/ code = 2)%Z
    | Panics _ => False
    end.
Proof.
  intros ParseInt args. unfold Args.ParseArgs, Parse.
  match goal with
  | |- context [parseLoop ParseInt ?n ?fs args ?v] =>
      pose proof (parseLoop_outcome _ ParseInt fs n args v) as H;
      destruct (parseLoop ParseInt n fs args v) as [[v' posArgs]|code out|reason]
  end.
  - destruct H as [pre ->].
    destruct (Args.printVersion v' || (List.length posArgs <? 2)%nat);
      [now left|].
    destruct posArgs as [|p [|sp post]]; try (now left).
    exists pre, post. reflexivity.
  - destruct H as [H _]. exact H.
  - exact H.
Qed.

(** X3. The flag parser stops at the first argument that does not start
    with a dash: when the pattern comes first, everything after it is
    positional.  The next argument is the start path even if it looks like
    a flag, further arguments are dropped, and all flags keep their
    defaults: 100 workers, colours, case-sensitive matching, no additional
    exclusion, a limit of 100 megabytes, no match context. *)
Theorem X3_flags_after_the_pattern_are_not_parsed :
  forall (ParseInt : string -> option Z) (pat path : string) (rest : list string),
    HasPrefix pat "-" = false ->
    Args.ParseArgs ParseInt (pat :: path :: rest)
    = Returns (Args.mkParameters (Args.mkFlags 100 false false "" 104857600 false) path pat).
Proof.
  intros ParseInt pat path rest H. unfold Args.ParseArgs, Parse.
  cbn [List.length parseLoop].
  rewrite no_dash_is_positional by assumption. reflexivity.
Qed.

Lemma X3_flags_after_the_pattern_witness :
  Args.ParseArgs Atoi ["foo"; "-i"; "."; "-lim"; "5"]
  = Returns (Args.mkParameters (Args.mkFlags 100 false false "" 104857600 false) "-i" "foo").
Proof.
  apply (X3_flags_after_the_pattern_are_not_parsed Atoi "foo" "-i" ["."; "-lim"; "5"]).
  reflexivity.
Defined.

(** ** The reporter, in general *)

(** X4. Without colours the lines written for a sequence of calls of
    [printHandler] are the messages of the calls that are not error
    calls, as they are: a match is the bare path.  With colours every call
    writes exactly one line. *)
Theorem X4_lines_of_the_reporter :
  forall (green red : string -> string) (cs : list Mgp.Call),
    Mgp.render green red false cs
    = map fst (filter (fun c => negb (Mgp.isError c)) cs) /\
    List.length (Mgp.render green red true cs) = List.length cs.
Proof.
  intros green red cs. unfold Mgp.render. split.
  - induction cs as [|[m t] cs IH]; [reflexivity|].
    cbn [flat_map filter]. rewrite IH. destruct t; reflexivity.
  - induction cs as [|[m t] cs IH]; [reflexivity|].
    cbn [flat_map]. rewrite length_app, IH. destruct t; reflexivity.
Qed.

(** ** The reading loop, in general *)

(** X5. On a file that is read to its end the reading loop of [handler]
    ends within one iteration per newline and one more, whatever the
    pointer to the compiled pattern.  With a nil pointer it ends in the
    call of [Match] on nil exactly when the file holds a newline: an empty
    file and a file of one unterminated line are passed over, since the
    loop leaves at [io.EOF] before any test. *)
Theorem X5_reading_loop_on_a_file_read_to_its_end :
  forall (r : option Regexp) (fullpath content : string) (fuel : nat),
    List.length (fst (linesOf content)) < fuel ->
    Mgp.scan fuel r fullpath (mkFile content io_EOF)
    = Some (match r with
            | Some re =>
                (if existsb re (fst (linesOf content))
                 then [(fullpath, Mgp.MatchMessage)] else [], true)
            | None =>
                ([], match fst (linesOf content) with [] => true | _ :: _ => false end)
            end).
Proof.
  intros [re|] fullpath content fuel Hlen.
  - exact (scan_to_EOF re fullpath fuel content Hlen).
  - destruct fuel as [|k]; [inversion Hlen|].
    cbn [Mgp.scan]. unfold ReadBytes. cbn [data fail].
    destruct (cutLine newline content) as [[l rest]|] eqn:Hc.
    + rewrite (cutLine_some _ _ _ Hc). reflexivity.
    + rewrite (cutLine_none _ Hc). reflexivity.
Qed.

Lemma X5_reading_loop_witness :
  Mgp.scan 1 None "r/last.txt" (mkFile "foo" io_EOF) = Some ([], true).
Proof.
  apply (X5_reading_loop_on_a_file_read_to_its_end None "r/last.txt" "foo" 1).
  cbn. lia.
Defined.

(** ** Invariants of a run *)

Ltac use_eqs :=
  repeat match goal with
         | E : ?f ?x = _ |- context [?f ?x] => rewrite E
         end.

Ltac finish :=
  cbn; use_eqs; cbn; cbn [negb Mgp.walking Mgp.ending] in *;
  intuition (try discriminate; try congruence; try lia).

Lemma reachable_invariant green red Match Base os_Open (cfg : Mgp.Config)
    (P : Mgp.State -> Prop) (s0 : Mgp.State) :
  P s0 ->
  (forall s a s', P s -> Mgp.step green red Match Base os_Open cfg a s = Some s' -> P s') ->
  forall s, Mgp.reachable green red Match Base os_Open cfg s0 s -> P s.
Proof.
  intros H0 Hstep s Hr. induction Hr as [|s a s' _ IH Hs]; [exact H0|].
  exact (Hstep _ _ _ IH Hs).
Qed.

Lemma exec_reachable green red Match Base os_Open (cfg : Mgp.Config)
    (sched : list Mgp.Action) (s0 s s' : Mgp.State) :
  Mgp.reachable green red Match Base os_Open cfg s0 s ->
  Mgp.exec green red Match Base os_Open cfg sched s = Some s' ->
  Mgp.reachable green red Match Base os_Open cfg s0 s'.
Proof.
  revert s. induction sched as [|a sched IH]; intros s Hr H; cbn [Mgp.exec] in H.
  - inversion H; subst. exact Hr.
  - destruct (Mgp.step green red Match Base os_Open cfg a s) as [s1|] eqn:Hs; [|discriminate].
    apply (IH s1); [|exact H]. eapply Mgp.reach_step; eassumption.
Qed.

Lemma Run_start (Compile : string -> Regexp + error) (workers : Z)
    (caseInsensitive colors : bool) (root : Mgp.Tree) (pattern : string)
    (exc : list string) (limit : Z) (cfg : Mgp.Config) (s0 : Mgp.State) :
  Mgp.Run Compile workers caseInsensitive colors root pattern exc limit = Returns (cfg, s0) ->
  cfg = Mgp.mkConfig (Z.to_nat workers) exc limit /\
  s0 = Mgp.mkState Mgp.Running colors (Mgp.compiled Compile caseInsensitive pattern)
         false true 0 0 false [] false (Z.to_nat workers)
         (Mgp.Walking (Mgp.AtRoot root)) [] [].
Proof.
  unfold Mgp.Run. destruct (workers <? 0)%Z; [discriminate|].
  intros H. inversion H. split; reflexivity.
Qed.

Lemma step_phasesOk green red Match Base os_Open cfg a s s' :
  Mgp.phasesOk cfg s ->
  Mgp.step green red Match Base os_Open cfg a s = Some s' -> Mgp.phasesOk cfg s'.
Proof.
  unfold Mgp.phasesOk. intros (H1 & H2 & H3 & H4 & H5) H.
  step_inv H; finish.
Qed.

Lemma step_tokensOk green red Match Base os_Open cfg a s s' :
  Mgp.tokensOk cfg s ->
  Mgp.step green red Match Base os_Open cfg a s = Some s' -> Mgp.tokensOk cfg s'.
Proof.
  unfold Mgp.tokensOk. intros [H1 H2] H.
  step_inv H; finish.
Qed.

Lemma step_drained green red Match Base os_Open cfg a s s' :
  Mgp.tokensOk cfg s -> Mgp.phasesOk cfg s -> Mgp.drained cfg s ->
  Mgp.step green red Match Base os_Open cfg a s = Some s' -> Mgp.drained cfg s'.
Proof.
  unfold Mgp.tokensOk, Mgp.phasesOk, Mgp.drained.
  intros [T1 T2] (P1 & P2 & P3 & P4 & P5) D H.
  step_inv H; finish.
Qed.

Lemma visit_printed_no_match Match Base stop exc limit t :
  Forall (fun c => Mgp.isMatch c = false)
         (Mgp.printed (Mgp.visit Match Base stop exc limit t)).
Proof.
  unfold Mgp.visit, Mgp.walkFn. destruct stop; [constructor|].
  destruct (Mgp.walkError t) as [err|].
  - unfold Mgp.handlePathError. destruct (os_IsNotExist err); [constructor|].
    destruct (Mgp.infoOf t) as [fi|]; [destruct (IsDir fi)|]; repeat constructor.
  - destruct (Mgp.infoOf t) as [fi|]; [|constructor].
    destruct (Mgp.processPath Match Base fi (Mgp.pathOf t) exc limit). constructor.
Qed.

Lemma step_events green red Match Base os_Open cfg a s s' :
  Mgp.step green red Match Base os_Open cfg a s = Some s' ->
  (exists cs, Mgp.events s' = (Mgp.events s ++ cs)%list /\
              Forall (fun c => Mgp.isMatch c = false) cs) \/
  (exists e q, Mgp.wg s <> 0 /\ Mgp.ch s = e :: q /\
               Mgp.events s' = (Mgp.events s ++ [(Mgp.Path e, Mgp.MatchMessage)])%list).
Proof.
  intros H. destruct a.
  7:{ destruct (handler_adds_at_most_one_event _ _ _ _ _ _ _ _ _ _ H) as [E|[e [q [E1 E2]]]].
      - left. exists []. rewrite app_nil_r. split; [exact E | constructor].
      - right. exists e, q. repeat split; try assumption.
        unfold Mgp.step, Mgp.handler in H. destruct (Mgp.status s); try discriminate.
        destruct (Mgp.wg s); [discriminate | discriminate]. }
  all: left; step_inv H;
    cbn [Mgp.events Mgp.set_status Mgp.set_signal Mgp.set_toSend
         Mgp.set_closeSignalChan Mgp.set_ch Mgp.set_wg Mgp.set_phase
         Mgp.emit Mgp.write].
  all: try (exists []; rewrite app_nil_r; split; [reflexivity | constructor]).
  all: try (eexists; split; [reflexivity | apply visit_printed_no_match]).
  all: try (eexists; split; [reflexivity | repeat constructor]).
Qed.

Section Candidates.
Variable Match : string -> string -> bool * option error.
Variable Base : string -> string.
Variables (exc : list string) (limit : Z) (root : Mgp.Tree).

Let inside := Mgp.inside Match Base exc limit root.

Lemma settle_frontier (stack : list (list Mgp.Tree)) :
  Forall (Forall inside) stack ->
  Mgp.frontierOk Match Base exc limit root (Mgp.Walking (Mgp.settle stack)).
Proof.
  induction stack as [|frame stack IH]; intros H; cbn [Mgp.settle]; [exact I|].
  destruct frame as [|t ts].
  - apply IH. now inversion H.
  - exact H.
Qed.

Lemma propagate_frontier (e : error) (rest : list (list Mgp.Tree)) :
  Forall (Forall inside) rest ->
  Mgp.frontierOk Match Base exc limit root (Mgp.Walking (Mgp.propagate e rest)).
Proof.
  intros H. unfold Mgp.propagate. destruct (is_SkipDir e); [now apply settle_frontier | exact I].
Qed.

(** The walk enters a directory only after [processPath] found it not
    excluded: its entries then yield what the directory yields. *)
Lemma descend_inside (stop : bool) (t : Mgp.Tree) (ret : option error) (kids : list Mgp.Tree) :
  Mgp.result (Mgp.visit Match Base stop exc limit t) = Returns ret ->
  Mgp.descend t ret = Some kids ->
  inside t -> Forall inside kids.
Proof.
  intros Hres Hd Hin.
  destruct t as [p e|p info [e|] ks]; try discriminate.
  destruct ret; [discriminate|].
  cbn [Mgp.descend] in Hd. destruct (IsDir info) eqn:Hdir; [|discriminate].
  inversion Hd; subst ks.
  unfold Mgp.visit, Mgp.walkFn in Hres. cbn [Mgp.walkError Mgp.infoOf Mgp.pathOf] in Hres.
  rewrite Hdir in Hres. destruct stop; [discriminate|].
  unfold Mgp.processPath in Hres. rewrite Hdir in Hres.
  destruct (Mgp.excluded Match Base true p exc) eqn:Hex; [discriminate|].
  unfold inside, Mgp.inside in *. cbn [Mgp.candidates] in Hin. rewrite Hdir, Hex in Hin.
  apply Forall_forall. intros k Hk x Hx. apply Hin. apply in_flat_map. eauto.
Qed.

Lemma afterEntry_frontier stop t ts rest ret :
  Mgp.result (Mgp.visit Match Base stop exc limit t) = Returns ret ->
  Forall (Forall inside) ((t :: ts) :: rest) ->
  Mgp.frontierOk Match Base exc limit root (Mgp.Walking (Mgp.afterEntry t ts rest ret)).
Proof.
  intros Hres H. inversion H as [|? ? Hframe Hrest]; subst.
  inversion Hframe as [|? ? Ht Hts]; subst.
  unfold Mgp.afterEntry.
  destruct (Mgp.descend t ret) as [kids|] eqn:Hd.
  - apply settle_frontier. constructor; [|constructor; assumption].
    exact (descend_inside _ _ _ _ Hres Hd Ht).
  - destruct (Mgp.goesOn t ret).
    + apply settle_frontier. constructor; assumption.
    + destruct ret as [e|].
      * now apply propagate_frontier.
      * apply settle_frontier. constructor; assumption.
Qed.

Lemma afterRoot_frontier stop t ret :
  Mgp.result (Mgp.visit Match Base stop exc limit t) = Returns ret ->
  inside t ->
  Mgp.frontierOk Match Base exc limit root (Mgp.Walking (Mgp.afterRoot t ret)).
Proof.
  intros Hres Ht. unfold Mgp.afterRoot.
  destruct (Mgp.descend t ret) as [kids|] eqn:Hd.
  - apply settle_frontier. constructor; [|constructor].
    exact (descend_inside _ _ _ _ Hres Hd Ht).
  - destruct ret as [e|]; [destruct (is_SkipDir e)|]; exact I.
Qed.

End Candidates.

Lemma step_ch green red Match Base os_Open cfg a s s' :
  Mgp.step green red Match Base os_Open cfg a s = Some s' ->
  Mgp.ch s' = Mgp.ch s \/
  (exists e, Mgp.ch s = e :: Mgp.ch s') \/
  (exists t e,
      Mgp.ch s' = (Mgp.ch s ++ [e])%list /\ List.length (Mgp.ch s) < Mgp.chCap /\
      (Mgp.phase s = Mgp.Walking (Mgp.AtRoot t) \/
       exists ts rest, Mgp.phase s = Mgp.Walking (Mgp.InDirs ((t :: ts) :: rest))) /\
      Mgp.enqueued (Mgp.visit Match Base (Mgp.stopWalk s) (Mgp.exludedDirs cfg)
                      (Mgp.limitMb cfg) t) = Some e).
Proof.
  intros H. step_inv H;
    cbn [Mgp.ch Mgp.phase Mgp.set_status Mgp.set_signal Mgp.set_toSend
         Mgp.set_closeSignalChan Mgp.set_ch Mgp.set_wg Mgp.set_phase
         Mgp.emit Mgp.write]; auto.
  all: try (right; left; eexists; first [eassumption | reflexivity]).
  all: try (right; right; do 2 eexists; split; [reflexivity|];
            split; [apply Nat.leb_gt; eassumption|];
            split; [first [left; reflexivity | right; do 2 eexists; reflexivity]
                   | eassumption]).
Qed.

Lemma visit_enqueues Match Base stop exc limit t e :
  Mgp.enqueued (Mgp.visit Match Base stop exc limit t) = Some e ->
  Mgp.entryOk limit e /\ Mgp.candidates Match Base exc limit t = [e].
Proof.
  unfold Mgp.visit, Mgp.walkFn. destruct stop; [discriminate|].
  destruct (Mgp.walkError t) as [err|] eqn:He.
  - destruct (Mgp.handlePathError (Mgp.infoOf t) (Mgp.pathOf t) err). discriminate.
  - destruct t as [p err|p info rderr kids]; [discriminate|].
    cbn [Mgp.infoOf Mgp.pathOf Mgp.walkError] in *.
    unfold Mgp.processPath.
    destruct (IsDir info) eqn:Hd.
    + destruct (Mgp.excluded Match Base true p exc); discriminate.
    + rewrite excluded_not_dir. cbn [negb andb Mgp.candidates].
      rewrite Hd.
      destruct (Size info <? limit)%Z eqn:Hs; [|discriminate].
      cbn. intros E. inversion E; subst. unfold Mgp.entryOk. cbn.
      repeat split; try assumption. now apply Z.ltb_lt.
Qed.

Lemma step_frontier green red Match Base os_Open cfg root a s s' :
  Mgp.step green red Match Base os_Open cfg a s = Some s' ->
  Mgp.frontierOk Match Base (Mgp.exludedDirs cfg) (Mgp.limitMb cfg) root (Mgp.phase s) ->
  Mgp.frontierOk Match Base (Mgp.exludedDirs cfg) (Mgp.limitMb cfg) root (Mgp.phase s').
Proof.
  intros H F. step_inv H;
    cbn [Mgp.phase Mgp.set_status Mgp.set_signal Mgp.set_toSend
         Mgp.set_closeSignalChan Mgp.set_ch Mgp.set_wg Mgp.set_phase
         Mgp.emit Mgp.write]; try exact I; try assumption.
  all: try (match goal with E : Mgp.phase _ = _ |- _ => rewrite E; assumption end).
  all: try (eapply afterRoot_frontier; eassumption).
  all: try (eapply afterEntry_frontier; eassumption).
  all: try (apply settle_frontier; assumption).
  all: try (apply settle_frontier; cbn in F; now inversion F).
Qed.

Lemma step_fromCandidates green red Match Base os_Open cfg root a s s' :
  Mgp.step green red Match Base os_Open cfg a s = Some s' ->
  Mgp.fromCandidates Match Base cfg root s -> Mgp.fromCandidates Match Base cfg root s'.
Proof.
  intros H (F & Q & M). repeat split.
  - exact (step_frontier _ _ _ _ _ _ _ _ _ _ H F).
  - destruct (step_ch _ _ _ _ _ _ _ _ _ H) as [E|[[e E]|(t & e & E & _ & Hph & Henq)]].
    + now rewrite E.
    + rewrite E in Q. now inversion Q.
    + rewrite E. apply Forall_app. split; [assumption|].
      constructor; [|constructor].
      destruct (visit_enqueues _ _ _ _ _ _ _ Henq) as [_ Hc].
      assert (Hin : Mgp.inside Match Base (Mgp.exludedDirs cfg) (Mgp.limitMb cfg) root t).
      { destruct Hph as [Hph|[ts [rest Hph]]]; rewrite Hph in F; cbn in F.
        - exact F.
        - inversion F as [|? ? Hf _]; subst. now inversion Hf. }
      apply Hin. rewrite Hc. now left.
  - intros p Hp.
    destruct (step_events _ _ _ _ _ _ _ _ _ H) as [(cs & E & Hcs)|(e & q & _ & Hch & E)];
      rewrite E in Hp; apply in_app_or in Hp; destruct Hp as [Hp|Hp].
    + exact (M p Hp).
    + rewrite Forall_forall in Hcs. specialize (Hcs _ Hp). discriminate Hcs.
    + exact (M p Hp).
    + destruct Hp as [Hp|[]]. inversion Hp; subst.
      exists e. split; [|reflexivity]. rewrite Hch in Q. now inversion Q.
Qed.

Lemma start_invariants (Compile : string -> Regexp + error) (workers : Z)
    (caseInsensitive colors : bool) (root : Mgp.Tree) (pattern : string)
    (exc : list string) (limit : Z) (cfg : Mgp.Config) (s0 : Mgp.State) :
  Mgp.Run Compile workers caseInsensitive colors root pattern exc limit = Returns (cfg, s0) ->
  Mgp.phasesOk cfg s0 /\ Mgp.tokensOk cfg s0 /\ Mgp.drained cfg s0 /\
  Mgp.ch s0 = [] /\ Mgp.events s0 = [] /\ Mgp.phase s0 = Mgp.Walking (Mgp.AtRoot root) /\
  Mgp.exludedDirs cfg = exc /\ Mgp.limitMb cfg = limit /\ Mgp.workers cfg = Z.to_nat workers.
Proof.
  intros H. destruct (Run_start _ _ _ _ _ _ _ _ _ _ H) as [-> ->].
  unfold Mgp.phasesOk, Mgp.tokensOk, Mgp.drained. cbn.
  repeat split; try reflexivity; try lia; try discriminate.
Qed.

(** X6. In every state of a run the queue holds at most 5000 entries, and
    every entry in it is one that [processPath] has checked: not a
    directory, and of a size strictly below the limit. *)
Theorem X6_queue_is_bounded_and_checked :
  forall green red Match Base (os_Open : string -> File + error)
         (Compile : string -> Regexp + error)
         (workers : Z) (caseInsensitive colors : bool) (root : Mgp.Tree)
         (pattern : string) (exc : list string) (limit : Z)
         (cfg : Mgp.Config) (s0 s : Mgp.State),
    Mgp.Run Compile workers caseInsensitive colors root pattern exc limit
    = Returns (cfg, s0) ->
    Mgp.reachable green red Match Base os_Open cfg s0 s ->
    List.length (Mgp.ch s) <= 5000 /\
    Forall (fun e => IsDir (Mgp.Info e) = false /\ (Size (Mgp.Info e) < limit)%Z) (Mgp.ch s).
Proof.
  intros green red Match Base os_Open Compile workers ci colors root pattern exc limit
         cfg s0 s HRun Hr.
  destruct (start_invariants _ _ _ _ _ _ _ _ _ _ HRun)
    as (_ & _ & _ & Hch & _ & _ & _ & Hlim & _).
  revert s Hr.
  apply (reachable_invariant green red Match Base os_Open cfg
           (fun s => List.length (Mgp.ch s) <= Mgp.chCap /\
                     Forall (Mgp.entryOk limit) (Mgp.ch s))).
  - rewrite Hch. split; [apply Nat.le_0_l | constructor].
  - intros s a s' [Hb Hok] Hstep.
    destruct (step_ch _ _ _ _ _ _ _ _ _ Hstep) as [E|[[e E]|(t & e & E & Hlt & _ & Henq)]].
    + rewrite E. split; assumption.
    + rewrite E in Hb, Hok. cbn [List.length] in Hb. split; [lia | now inversion Hok].
    + rewrite E, length_app. cbn [List.length]. split; [lia|].
      apply Forall_app. split; [assumption|]. constructor; [|constructor].
      rewrite Hlim in Henq. exact (proj1 (visit_enqueues _ _ _ _ _ _ _ Henq)).
Qed.

Lemma X6_queue_witness :
  exists s,
    Runs.exec Runs.cfg2 [Mgp.WalkStep; Mgp.WalkStep] (Runs.started Runs.treeTwice) = Some s /\
    List.length (Mgp.ch s) <= 5000 /\
    Forall (fun e => IsDir (Mgp.Info e) = false /\ (Size (Mgp.Info e) < 104857600)%Z)
           (Mgp.ch s).
Proof.
  eexists. split; [vm_compute; reflexivity|].
  apply (X6_queue_is_bounded_and_checked Sample.green Sample.red Sample.Match Sample.Base
           Runs.os_Open Sample.Compile 2%Z false true Runs.treeTwice "foo"
           Args.STD_EXC_DIRS 104857600%Z Runs.cfg2 (Runs.started Runs.treeTwice) _ eq_refl).
  eapply (exec_reachable _ _ _ _ _ _
           [Mgp.WalkStep; Mgp.WalkStep]);
    [apply Mgp.reach_start | vm_compute; reflexivity].
Defined.

(** X7. [ch] is closed exactly when [Run] has left [filepath.Walk], and
    once it is closed no step adds an entry to it: the queue stays as it
    is or loses its oldest entry. *)
Theorem X7_closed_queue_receives_nothing :
  forall green red Match Base (os_Open : string -> File + error)
         (Compile : string -> Regexp + error)
         (workers : Z) (caseInsensitive colors : bool) (root : Mgp.Tree)
         (pattern : string) (exc : list string) (limit : Z)
         (cfg : Mgp.Config) (s0 s : Mgp.State),
    Mgp.Run Compile workers caseInsensitive colors root pattern exc limit
    = Returns (cfg, s0) ->
    Mgp.reachable green red Match Base os_Open cfg s0 s ->
    Mgp.chClosed s = negb (Mgp.walking (Mgp.phase s)) /\
    (Mgp.chClosed s = true ->
     forall a s',
       Mgp.step green red Match Base os_Open cfg a s = Some s' ->
       Mgp.chClosed s' = true /\
       (Mgp.ch s' = Mgp.ch s \/ exists e, Mgp.ch s = e :: Mgp.ch s')).
Proof.
  intros green red Match Base os_Open Compile workers ci colors root pattern exc limit
         cfg s0 s HRun Hr.
  destruct (start_invariants _ _ _ _ _ _ _ _ _ _ HRun) as (HP & _).
  assert (HPs : Mgp.phasesOk cfg s).
  { revert s Hr. apply (reachable_invariant green red Match Base os_Open cfg).
    - exact HP.
    - intros s a s' H Hs. exact (step_phasesOk _ _ _ _ _ _ _ _ _ H Hs). }
  split; [exact (proj1 HPs)|].
  intros Hc a s' Hstep.
  pose proof (step_phasesOk _ _ _ _ _ _ _ _ _ HPs Hstep) as HPs'.
  destruct HPs as (P1 & _). destruct HPs' as (P1' & _).
  rewrite Hc in P1.
  destruct (step_ch _ _ _ _ _ _ _ _ _ Hstep) as [E|[[e E]|(t & e & _ & _ & Hph & _)]].
  - split; [|now left].
    rewrite P1'. clear P1'. step_inv Hstep; finish.
  - split; [|right; now exists e].
    rewrite P1'. clear P1'. step_inv Hstep; finish.
  - exfalso. destruct Hph as [Hph|[ts [rest Hph]]]; rewrite Hph in P1; discriminate.
Qed.

Lemma X7_closed_queue_witness :
  exists s,
    Runs.exec Runs.cfg2 [Mgp.WalkStep; Mgp.WalkStep; Mgp.CloseCh]
      (Runs.started Runs.treeTwice) = Some s /\
    Mgp.chClosed s = negb (Mgp.walking (Mgp.phase s)) /\
    (Mgp.chClosed s = true ->
     forall a s',
       Runs.step Runs.cfg2 a s = Some s' ->
       Mgp.chClosed s' = true /\
       (Mgp.ch s' = Mgp.ch s \/ exists e, Mgp.ch s = e :: Mgp.ch s')).
Proof.
  eexists. split; [vm_compute; reflexivity|].
  apply (X7_closed_queue_receives_nothing Sample.green Sample.red Sample.Match Sample.Base
           Runs.os_Open Sample.Compile 2%Z false true Runs.treeTwice "foo"
           Args.STD_EXC_DIRS 104857600%Z Runs.cfg2 (Runs.started Runs.treeTwice) _ eq_refl).
  eapply (exec_reachable _ _ _ _ _ _
           [Mgp.WalkStep; Mgp.WalkStep; Mgp.CloseCh]);
    [apply Mgp.reach_start | vm_compute; reflexivity].
Defined.

Lemma reachable_invariants green red Match Base os_Open
    (Compile : string -> Regexp + error) (workers : Z)
    (caseInsensitive colors : bool) (root : Mgp.Tree) (pattern : string)
    (exc : list string) (limit : Z) (cfg : Mgp.Config) (s0 s : Mgp.State) :
  Mgp.Run Compile workers caseInsensitive colors root pattern exc limit = Returns (cfg, s0) ->
  Mgp.reachable green red Match Base os_Open cfg s0 s ->
  Mgp.phasesOk cfg s /\ Mgp.tokensOk cfg s /\ Mgp.drained cfg s.
Proof.
  intros HRun Hr.
  destruct (start_invariants _ _ _ _ _ _ _ _ _ _ HRun) as (HP & HT & HD & _).
  revert s Hr. apply (reachable_invariant green red Match Base os_Open cfg).
  - split; [|split]; assumption.
  - intros s a s' (P & T & D) Hs. split; [|split].
    + exact (step_phasesOk _ _ _ _ _ _ _ _ _ P Hs).
    + exact (step_tokensOk _ _ _ _ _ _ _ _ _ T Hs).
    + exact (step_drained _ _ _ _ _ _ _ _ _ T P D Hs).
Qed.

(** X8. The signal goroutine sends at most one value for each handler:
    the values buffered in [closeSignalChan] and those still to send never
    exceed the number of workers, the capacity of the channel.  So the
    send never blocks: as long as the channel is open, a pending send can
    happen.  A signal that arrives after the first one changes nothing. *)
Theorem X8_one_token_per_worker :
  forall green red Match Base (os_Open : string -> File + error)
         (Compile : string -> Regexp + error)
         (workers : Z) (caseInsensitive colors : bool) (root : Mgp.Tree)
         (pattern : string) (exc : list string) (limit : Z)
         (cfg : Mgp.Config) (s0 s : Mgp.State),
    Mgp.Run Compile workers caseInsensitive colors root pattern exc limit
    = Returns (cfg, s0) ->
    Mgp.reachable green red Match Base os_Open cfg s0 s ->
    Mgp.closeSignalChan s + Mgp.toSend s <= Mgp.workers cfg /\
    (Mgp.status s = Mgp.Running -> Mgp.toSend s <> 0 -> Mgp.closeSignalClosed s = false ->
     exists s',
       Mgp.step green red Match Base os_Open cfg Mgp.SendToken s = Some s' /\
       Mgp.closeSignalChan s' = S (Mgp.closeSignalChan s) /\
       S (Mgp.toSend s') = Mgp.toSend s) /\
    (Mgp.status s = Mgp.Running -> Mgp.sigWaiting s = false ->
     Mgp.step green red Match Base os_Open cfg Mgp.Signal s = Some s).
Proof.
  intros green red Match Base os_Open Compile workers ci colors root pattern exc limit
         cfg s0 s HRun Hr.
  destruct (reachable_invariants _ _ _ _ _ _ _ _ _ _ _ _ _ _ _ _ HRun Hr) as (_ & [T1 T2] & _).
  repeat split.
  - exact T1.
  - intros Hst Hn Hc. unfold Mgp.step, Mgp.onSendToken. rewrite Hst.
    destruct (Mgp.toSend s) as [|k] eqn:Hk; [contradiction|]. rewrite Hc.
    destruct (Nat.ltb_spec (Mgp.closeSignalChan s) (Mgp.workers cfg)) as [_|Hge]; [|lia].
    eexists. split; [reflexivity|]. cbn. split; reflexivity.
  - intros Hst Hw. unfold Mgp.step, Mgp.onSignal. rewrite Hst, Hw. reflexivity.
Qed.

Lemma X8_one_token_witness :
  exists s,
    Runs.exec Runs.cfg2 [Mgp.WalkStep; Mgp.Signal; Mgp.SendToken]
      (Runs.started Runs.treeTwice) = Some s /\
    Mgp.closeSignalChan s + Mgp.toSend s <= 2 /\
    (Mgp.status s = Mgp.Running -> Mgp.toSend s <> 0 -> Mgp.closeSignalClosed s = false ->
     exists s',
       Runs.step Runs.cfg2 Mgp.SendToken s = Some s' /\
       Mgp.closeSignalChan s' = S (Mgp.closeSignalChan s) /\
       S (Mgp.toSend s') = Mgp.toSend s) /\
    (Mgp.status s = Mgp.Running -> Mgp.sigWaiting s = false ->
     Runs.step Runs.cfg2 Mgp.Signal s = Some s).
Proof.
  eexists. split; [vm_compute; reflexivity|].
  apply (X8_one_token_per_worker Sample.green Sample.red Sample.Match Sample.Base
           Runs.os_Open Sample.Compile 2%Z false true Runs.treeTwice "foo"
           Args.STD_EXC_DIRS 104857600%Z Runs.cfg2 (Runs.started Runs.treeTwice) _ eq_refl).
  eapply (exec_reachable _ _ _ _ _ _
           [Mgp.WalkStep; Mgp.Signal; Mgp.SendToken]);
    [apply Mgp.reach_start | vm_compute; reflexivity].
Defined.

(** X9. [Run] returns only behind its barrier: in a state in which it has
    returned every handler has returned and both channels are closed.  If
    moreover no signal was received and there is at least one worker, the
    queue is empty: every entry the walk sent has been taken by a
    handler. *)
Theorem X9_Run_returns_after_the_handlers :
  forall green red Match Base (os_Open : string -> File + error)
         (Compile : string -> Regexp + error)
         (workers : Z) (caseInsensitive colors : bool) (root : Mgp.Tree)
         (pattern : string) (exc : list string) (limit : Z)
         (cfg : Mgp.Config) (s0 s : Mgp.State),
    Mgp.Run Compile workers caseInsensitive colors root pattern exc limit
    = Returns (cfg, s0) ->
    Mgp.reachable green red Match Base os_Open cfg s0 s ->
    Mgp.status s = Mgp.Returned ->
    Mgp.wg s = 0 /\ Mgp.chClosed s = true /\ Mgp.closeSignalClosed s = true /\
    (Mgp.sigWaiting s = true -> (0 < workers)%Z -> Mgp.ch s = []).
Proof.
  intros green red Match Base os_Open Compile workers ci colors root pattern exc limit
         cfg s0 s HRun Hr Hret.
  destruct (reachable_invariants _ _ _ _ _ _ _ _ _ _ _ _ _ _ _ _ HRun Hr)
    as ((P1 & P2 & P3 & P4 & P5) & _ & D).
  destruct (start_invariants _ _ _ _ _ _ _ _ _ _ HRun) as (_ & _ & _ & _ & _ & _ & _ & _ & Hw).
  specialize (P5 Hret). rewrite P5 in P1, P2. specialize (P3 P5).
  repeat split; try assumption.
  intros Hsig Hpos. apply D; [assumption|]. rewrite P3, Hw. lia.
Qed.

Lemma X9_Run_returns_witness :
  exists s,
    Runs.exec Runs.cfg2
      [Mgp.WalkStep; Mgp.WalkStep; Mgp.CloseCh; Mgp.Worker Mgp.CaseEntry 4;
       Mgp.Worker Mgp.CaseEntry 0; Mgp.Worker Mgp.CaseEntry 0; Mgp.Join; Mgp.Finish]
      (Runs.started Runs.treeTwice) = Some s /\
    Mgp.wg s = 0 /\ Mgp.chClosed s = true /\ Mgp.closeSignalClosed s = true /\
    (Mgp.sigWaiting s = true -> (0 < 2)%Z -> Mgp.ch s = []).
Proof.
  eexists. split; [vm_compute; reflexivity|].
  apply (X9_Run_returns_after_the_handlers Sample.green Sample.red Sample.Match Sample.Base
           Runs.os_Open Sample.Compile 2%Z false true Runs.treeTwice "foo"
           Args.STD_EXC_DIRS 104857600%Z Runs.cfg2 (Runs.started Runs.treeTwice) _ eq_refl);
    [|reflexivity].
  eapply (exec_reachable _ _ _ _ _ _
           [Mgp.WalkStep; Mgp.WalkStep; Mgp.CloseCh; Mgp.Worker Mgp.CaseEntry 4;
            Mgp.Worker Mgp.CaseEntry 0; Mgp.Worker Mgp.CaseEntry 0; Mgp.Join; Mgp.Finish]);
    [apply Mgp.reach_start | vm_compute; reflexivity].
Defined.

Lemma matches_app (cs cs' : list Mgp.Call) :
  Mgp.matches (cs ++ cs') = Mgp.matches cs + Mgp.matches cs'.
Proof. unfold Mgp.matches. now rewrite filter_app, length_app. Qed.

Lemma matches_none (cs : list Mgp.Call) :
  Forall (fun c => Mgp.isMatch c = false) cs -> Mgp.matches cs = 0.
Proof.
  unfold Mgp.matches. induction 1 as [|c cs Hc _ IH]; [reflexivity|].
  cbn [filter]. rewrite Hc. exact IH.
Qed.

Lemma step_wg green red Match Base os_Open cfg a s s' :
  Mgp.step green red Match Base os_Open cfg a s = Some s' -> Mgp.wg s' <= Mgp.wg s.
Proof. intros H. step_inv H; finish. Qed.

(** X10. With [-w 0] no handler is started: the walk still runs and the
    run can end, but no match is ever reported, whatever the files hold. *)
Theorem X10_no_worker_no_match :
  forall green red Match Base (os_Open : string -> File + error)
         (Compile : string -> Regexp + error)
         (caseInsensitive colors : bool) (root : Mgp.Tree)
         (pattern : string) (exc : list string) (limit : Z)
         (cfg : Mgp.Config) (s0 s : Mgp.State),
    Mgp.Run Compile 0 caseInsensitive colors root pattern exc limit = Returns (cfg, s0) ->
    Mgp.reachable green red Match Base os_Open cfg s0 s ->
    Mgp.wg s = 0 /\ Mgp.matches (Mgp.events s) = 0.
Proof.
  intros green red Match Base os_Open Compile ci colors root pattern exc limit
         cfg s0 s HRun Hr.
  destruct (Run_start _ _ _ _ _ _ _ _ _ _ HRun) as [-> ->].
  revert s Hr. apply (reachable_invariant green red Match Base os_Open).
  - split; reflexivity.
  - intros s a s' [Hw Hm] Hs. split.
    + pose proof (step_wg _ _ _ _ _ _ _ _ _ Hs). lia.
    + destruct (step_events _ _ _ _ _ _ _ _ _ Hs) as [(cs & E & Hcs)|(e & q & Hne & _)].
      * rewrite E, matches_app, Hm, (matches_none _ Hcs). reflexivity.
      * contradiction.
Qed.

Lemma X10_no_worker_witness :
  exists s,
    Mgp.exec Sample.green Sample.red Sample.Match Sample.Base Runs.os_Open
      (Mgp.mkConfig 0 Args.STD_EXC_DIRS 104857600)
      [Mgp.WalkStep; Mgp.WalkStep; Mgp.CloseCh; Mgp.Join; Mgp.Finish]
      (Mgp.mkState Mgp.Running true (Mgp.compiled Sample.Compile false "foo")
         false true 0 0 false [] false 0 (Mgp.Walking (Mgp.AtRoot Runs.treeTwice)) [] [])
    = Some s /\
    Mgp.wg s = 0 /\ Mgp.matches (Mgp.events s) = 0.
Proof.
  eexists. split; [vm_compute; reflexivity|].
  apply (X10_no_worker_no_match Sample.green Sample.red Sample.Match Sample.Base
           Runs.os_Open Sample.Compile false true Runs.treeTwice "foo"
           Args.STD_EXC_DIRS 104857600%Z
           (Mgp.mkConfig 0 Args.STD_EXC_DIRS 104857600)
           (Mgp.mkState Mgp.Running true (Mgp.compiled Sample.Compile false "foo")
              false true 0 0 false [] false 0 (Mgp.Walking (Mgp.AtRoot Runs.treeTwice)) [] [])
           _ eq_refl).
  eapply (exec_reachable _ _ _ _ _ _
           [Mgp.WalkStep; Mgp.WalkStep; Mgp.CloseCh; Mgp.Join; Mgp.Finish]);
    [apply Mgp.reach_start | vm_compute; reflexivity].
Defined.


(** X11. Whatever the schedule, the entries in the queue and the paths of
    the matches reported so far are among the entries the walk of the root
    yields: files smaller than the limit that lie under no directory which
    is excluded or cannot be read. *)
Theorem X11_queue_and_matches_come_from_the_walk :
  forall green red Match Base (os_Open : string -> File + error)
         (Compile : string -> Regexp + error)
         (workers : Z) (caseInsensitive colors : bool) (root : Mgp.Tree)
         (pattern : string) (exc : list string) (limit : Z)
         (cfg : Mgp.Config) (s0 s : Mgp.State),
    Mgp.Run Compile workers caseInsensitive colors root pattern exc limit
    = Returns (cfg, s0) ->
    Mgp.reachable green red Match Base os_Open cfg s0 s ->
    Forall (fun e => In e (Mgp.candidates Match Base exc limit root)) (Mgp.ch s) /\
    (forall p, In (p, Mgp.MatchMessage) (Mgp.events s) ->
               exists e, In e (Mgp.candidates Match Base exc limit root) /\ Mgp.Path e = p).
Proof.
  intros green red Match Base os_Open Compile workers ci colors root pattern exc limit
         cfg s0 s HRun Hr.
  destruct (Run_start _ _ _ _ _ _ _ _ _ _ HRun) as [-> ->].
  assert (H : Mgp.fromCandidates Match Base (Mgp.mkConfig (Z.to_nat workers) exc limit) root s).
  { revert s Hr. apply (reachable_invariant green red Match Base os_Open).
    - unfold Mgp.fromCandidates. cbn. repeat split.
      + unfold Mgp.inside. apply incl_refl.
      + constructor.
      + intros p [].
    - intros s a s' Hs Hstep. exact (step_fromCandidates _ _ _ _ _ _ _ _ _ _ Hstep Hs). }
  destruct H as (_ & Q & M). split; assumption.
Qed.

Lemma X11_queue_and_matches_witness :
  exists s,
    Runs.exec Runs.cfg2
      [Mgp.WalkStep; Mgp.WalkStep; Mgp.WalkStep; Mgp.CloseCh; Mgp.Worker Mgp.CaseEntry 3]
      (Runs.started Runs.treeDenied) = Some s /\
    Forall (fun e => In e (Mgp.candidates Sample.Match Sample.Base Args.STD_EXC_DIRS
                             104857600 Runs.treeDenied)) (Mgp.ch s) /\
    (forall p, In (p, Mgp.MatchMessage) (Mgp.events s) ->
               exists e, In e (Mgp.candidates Sample.Match Sample.Base Args.STD_EXC_DIRS
                                 104857600 Runs.treeDenied) /\ Mgp.Path e = p).
Proof.
  eexists. split; [vm_compute; reflexivity|].
  apply (X11_queue_and_matches_come_from_the_walk Sample.green Sample.red Sample.Match
           Sample.Base Runs.os_Open Sample.Compile 2%Z false true Runs.treeDenied "foo"
           Args.STD_EXC_DIRS 104857600%Z Runs.cfg2 (Runs.started Runs.treeDenied) _ eq_refl).
  eapply (exec_reachable _ _ _ _ _ _
           [Mgp.WalkStep; Mgp.WalkStep; Mgp.WalkStep; Mgp.CloseCh; Mgp.Worker Mgp.CaseEntry 3]);
    [apply Mgp.reach_start | vm_compute; reflexivity].
Defined.

(** The walk of the sample tree yields the file next to the unreadable
    directory, not the file inside it. *)
Example candidates_of_the_sample_tree :
  Mgp.candidates Sample.Match Sample.Base Args.STD_EXC_DIRS 104857600 Runs.treeDenied
  = [Mgp.mkEntry "r/b.txt" (Sample.regular "b.txt" 4)].
Proof. reflexivity. Qed.

(** ** Single steps of the walk *)

(** X12. Once [stopWalk] is true the next call of the walk function ends
    the walk, wherever it is: the function returns the error "user
    requested termination", which [filepath.Walk] hands up through every
    directory it is in.  Nothing is enqueued and nothing is reported, and
    the step does not wait for room in the queue. *)
Theorem X12_stopped_walk_ends_at_its_next_call :
  forall green red Match Base (os_Open : string -> File + error)
         (cfg : Mgp.Config) (s : Mgp.State) (t : Mgp.Tree)
         (ts : list Mgp.Tree) (rest : list (list Mgp.Tree)),
    Mgp.status s = Mgp.Running -> Mgp.stopWalk s = true ->
    Mgp.phase s = Mgp.Walking (Mgp.AtRoot t) \/
    Mgp.phase s = Mgp.Walking (Mgp.InDirs ((t :: ts) :: rest)) ->
    exists s',
      Mgp.step green red Match Base os_Open cfg Mgp.WalkStep s = Some s' /\
      Mgp.status s' = Mgp.Running /\
      Mgp.phase s'
      = Mgp.Walking (Mgp.WalkReturned (Some (errorString "user requested termination"))) /\
      Mgp.ch s' = Mgp.ch s /\ Mgp.events s' = Mgp.events s /\ Mgp.log s' = Mgp.log s.
Proof.
  intros green red Match Base os_Open cfg s t ts rest Hst Hstop Hph.
  unfold Mgp.step, Mgp.onWalkStep. rewrite Hst.
  assert (Hd : forall e, Mgp.descend t (Some e) = None).
  { intros e. destruct t as [|p info [|] kids]; reflexivity. }
  destruct Hph as [Hph|Hph]; rewrite Hph, Hstop; unfold Mgp.visit, Mgp.walkFn, Mgp.applyVisit;
    cbn [Mgp.enqueued Mgp.printed Mgp.result];
    (eexists; split; [reflexivity|]); cbn; rewrite ?app_nil_r.
  - unfold Mgp.afterRoot. rewrite Hd. cbn. repeat split; assumption.
  - unfold Mgp.afterEntry. rewrite Hd. cbn. repeat split; assumption.
Qed.

Lemma X12_stopped_walk_witness :
  exists s',
    Runs.step Runs.cfg2 Mgp.WalkStep
      (Runs.stoppedIn [[Mgp.Node "r/twice.txt" (Sample.regular "twice.txt" 12) None []]])
    = Some s' /\
    Mgp.status s' = Mgp.Running /\
    Mgp.phase s'
    = Mgp.Walking (Mgp.WalkReturned (Some (errorString "user requested termination"))) /\
    Mgp.ch s' = [] /\ Mgp.events s' = [] /\ Mgp.log s' = [].
Proof.
  exact (X12_stopped_walk_ends_at_its_next_call Sample.green Sample.red Sample.Match
           Sample.Base Runs.os_Open Runs.cfg2
           (Runs.stoppedIn [[Mgp.Node "r/twice.txt" (Sample.regular "twice.txt" 12) None []]])
           (Mgp.Node "r/twice.txt" (Sample.regular "twice.txt" 12) None []) [] []
           eq_refl eq_refl (or_intror eq_refl)).
Defined.

(** X13. A directory that can be read and that an exclusion glob matches,
    by its path or by its base name, is passed over in silence: nothing
    is enqueued, nothing is reported, and the walk goes on with the next
    entry of the parent without entering the directory. *)
Theorem X13_excluded_directory_is_passed_over :
  forall green red Match Base (os_Open : string -> File + error)
         (cfg : Mgp.Config) (s : Mgp.State) (p : string) (info : FileInfo)
         (kids ts : list Mgp.Tree) (rest : list (list Mgp.Tree)),
    Mgp.status s = Mgp.Running -> Mgp.stopWalk s = false ->
    Mgp.phase s = Mgp.Walking (Mgp.InDirs ((Mgp.Node p info None kids :: ts) :: rest)) ->
    IsDir info = true ->
    Spec.isExcluded Match Base p (Mgp.exludedDirs cfg) = true ->
    exists s',
      Mgp.step green red Match Base os_Open cfg Mgp.WalkStep s = Some s' /\
      Mgp.status s' = Mgp.Running /\
      Mgp.phase s' = Mgp.Walking (Mgp.settle (ts :: rest)) /\
      Mgp.ch s' = Mgp.ch s /\ Mgp.events s' = Mgp.events s /\ Mgp.log s' = Mgp.log s.
Proof.
  intros green red Match Base os_Open cfg s p info kids ts rest Hst Hstop Hph Hdir Hex.
  unfold Mgp.step, Mgp.onWalkStep. rewrite Hst, Hph, Hstop.
  unfold Mgp.visit, Mgp.walkFn, Mgp.processPath, Mgp.applyVisit.
  cbn [Mgp.pathOf Mgp.infoOf Mgp.walkError]. rewrite Hdir, excluded_dir, Hex.
  cbn [Mgp.enqueued Mgp.printed Mgp.result].
  eexists. split; [reflexivity|]. cbn. rewrite ?app_nil_r.
  unfold Mgp.afterEntry, Mgp.descend, Mgp.goesOn. cbn. rewrite Hdir.
  repeat split; assumption.
Qed.

Lemma X13_excluded_directory_witness :
  exists s',
    Runs.step Runs.cfg2 Mgp.WalkStep
      (Runs.walkingIn
         [[Mgp.Node "r/.git" (Sample.directory ".git") None
             [Mgp.Node "r/.git/c.txt" (Sample.regular "c.txt" 4) None []];
           Mgp.Node "r/b.txt" (Sample.regular "b.txt" 4) None []]])
    = Some s' /\
    Mgp.status s' = Mgp.Running /\
    Mgp.phase s'
    = Mgp.Walking (Mgp.InDirs [[Mgp.Node "r/b.txt" (Sample.regular "b.txt" 4) None []]]) /\
    Mgp.ch s' = [] /\ Mgp.events s' = [] /\ Mgp.log s' = [].
Proof.
  exact (X13_excluded_directory_is_passed_over Sample.green Sample.red Sample.Match
           Sample.Base Runs.os_Open Runs.cfg2
           (Runs.walkingIn
              [[Mgp.Node "r/.git" (Sample.directory ".git") None
                  [Mgp.Node "r/.git/c.txt" (Sample.regular "c.txt" 4) None []];
                Mgp.Node "r/b.txt" (Sample.regular "b.txt" 4) None []]])
           "r/.git" (Sample.directory ".git")
           [Mgp.Node "r/.git/c.txt" (Sample.regular "c.txt" 4) None []]
           [Mgp.Node "r/b.txt" (Sample.regular "b.txt" 4) None []] []
           eq_refl eq_refl eq_refl eq_refl eq_refl).
Defined.

(** ** The end of a run *)

(** X14. When [Run] has returned with [stopWalk] set, the last call of
    [printHandler] was the text "Ended by user", and that text is the last
    line written, with or without colours. *)
Theorem X14_interrupted_run_ends_with_its_notice :
  forall green red Match Base (os_Open : string -> File + error)
         (Compile : string -> Regexp + error)
         (workers : Z) (caseInsensitive colors : bool) (root : Mgp.Tree)
         (pattern : string) (exc : list string) (limit : Z)
         (cfg : Mgp.Config) (s0 s : Mgp.State),
    Mgp.Run Compile workers caseInsensitive colors root pattern exc limit
    = Returns (cfg, s0) ->
    Mgp.reachable green red Match Base os_Open cfg s0 s ->
    Mgp.status s = Mgp.Returned -> Mgp.stopWalk s = true ->
    (exists before, Mgp.events s = (before ++ [("Ended by user", Mgp.TextMessage)])%list) /\
    (exists before, Mgp.log s = (before ++ ["Ended by user"])%list).
Proof.
  intros green red Match Base os_Open Compile workers ci colors root pattern exc limit
         cfg s0 s HRun Hr Hret Hstop.
  destruct Hr as [|s1 a s' _ Hstep].
  - destruct (Run_start _ _ _ _ _ _ _ _ _ _ HRun) as [_ ->]. discriminate Hret.
  - step_inv Hstep; cbn in Hret, Hstop; try discriminate Hret; try congruence.
    cbn. split; eexists; reflexivity.
Qed.

Lemma X14_interrupted_run_witness :
  exists s,
    Runs.exec Runs.cfg2
      [Mgp.WalkStep; Mgp.Signal; Mgp.SendToken; Mgp.SendToken; Mgp.WalkStep; Mgp.CloseCh;
       Mgp.Worker Mgp.CaseClose 0; Mgp.Worker Mgp.CaseClose 0; Mgp.Join; Mgp.Finish]
      (Runs.started Runs.treeTwice) = Some s /\
    (exists before, Mgp.events s = (before ++ [("Ended by user", Mgp.TextMessage)])%list) /\
    (exists before, Mgp.log s = (before ++ ["Ended by user"])%list).
Proof.
  eexists. split; [vm_compute; reflexivity|].
  apply (X14_interrupted_run_ends_with_its_notice Sample.green Sample.red Sample.Match
           Sample.Base Runs.os_Open Sample.Compile 2%Z false true Runs.treeTwice "foo"
           Args.STD_EXC_DIRS 104857600%Z Runs.cfg2 (Runs.started Runs.treeTwice) _ eq_refl);
    [|reflexivity|reflexivity].
  eapply (exec_reachable _ _ _ _ _ _
           [Mgp.WalkStep; Mgp.Signal; Mgp.SendToken; Mgp.SendToken; Mgp.WalkStep; Mgp.CloseCh;
            Mgp.Worker Mgp.CaseClose 0; Mgp.Worker Mgp.CaseClose 0; Mgp.Join; Mgp.Finish]);
    [apply Mgp.reach_start | vm_compute; reflexivity].
Defined.

(** X15. A signal that arrives after [Run] has closed [closeSignalChan],
    while the process still runs, ends it in a panic when there is at
    least one worker: the signal goroutine wakes up and sends on the
    closed channel. *)
Theorem X15_signal_after_the_close_panics :
  forall green red Match Base (os_Open : string -> File + error)
         (cfg : Mgp.Config) (s : Mgp.State),
    Mgp.status s = Mgp.Running -> Mgp.closeSignalClosed s = true ->
    Mgp.sigWaiting s = true -> 0 < Mgp.workers cfg ->
    exists s',
      Mgp.exec green red Match Base os_Open cfg [Mgp.Signal; Mgp.SendToken] s = Some s' /\
      Mgp.status s' = Mgp.Panicked "send on closed channel".
Proof.
  intros green red Match Base os_Open cfg s Hst Hc Hw Hpos.
  cbn [Mgp.exec]. unfold Mgp.step at 1. rewrite Hst. unfold Mgp.onSignal. rewrite Hw.
  unfold Mgp.step, Mgp.onSendToken. cbn. rewrite Hst, Hc.
  destruct (Mgp.workers cfg) as [|k]; [inversion Hpos|].
  eexists. split; reflexivity.
Qed.

Lemma X15_signal_after_the_close_witness :
  (exists s',
     Runs.exec Runs.cfg2 [Mgp.Signal; Mgp.SendToken] Runs.ended = Some s' /\
     Mgp.status s' = Mgp.Panicked "send on closed channel") /\
  Runs.exec Runs.cfg2
    [Mgp.WalkStep; Mgp.WalkStep; Mgp.CloseCh; Mgp.Worker Mgp.CaseEntry 4;
     Mgp.Worker Mgp.CaseEntry 0; Mgp.Worker Mgp.CaseEntry 0; Mgp.Join]
    (Runs.started Runs.treeTwice)
  = Some (Mgp.emit Sample.green Sample.red [("r/twice.txt", Mgp.MatchMessage)]
            (Mgp.mkState Mgp.Running true (Mgp.compiled Sample.Compile false "foo")
               false true 0 0 true [] true 0 Mgp.Ending [] [])).
Proof.
  split.
  - apply (X15_signal_after_the_close_panics Sample.green Sample.red Sample.Match
             Sample.Base Runs.os_Open Runs.cfg2 Runs.ended); try reflexivity.
    cbn. lia.
  - vm_compute. reflexivity.
Defined.

(** ** The two programs *)

Lemma Legacy_excluded Match Base (isdir : bool) (pathname : string) (exc : list string) :
  Legacy.excluded Match Base isdir pathname exc = Mgp.excluded Match Base isdir pathname exc.
Proof. induction exc as [|n exc IH]; simpl; [reflexivity | now rewrite IH]. Qed.

(** X16. The older [processPath] takes the decisions of the newer one
    called with a limit of one megabyte: the same error is returned, and
    the path is sent exactly when the newer one sends the entry of that
    path. *)
Theorem X16_older_processPath_is_the_newer_at_one_megabyte :
  forall Match Base (info : FileInfo) (pathname : string) (exc : list string),
    Legacy.processPath Match Base info pathname exc
    = (fst (Mgp.processPath Match Base info pathname exc Legacy.MEGABYTE),
       option_map Mgp.Path (snd (Mgp.processPath Match Base info pathname exc Legacy.MEGABYTE))).
Proof.
  intros Match Base info pathname exc.
  unfold Legacy.processPath, Mgp.processPath. rewrite Legacy_excluded.
  destruct (Mgp.excluded Match Base (IsDir info) pathname exc); [reflexivity|].
  destruct (negb (IsDir info) && (Size info <? Legacy.MEGABYTE)%Z); reflexivity.
Qed.

(** X17. For an error that is not a missing path the older
    [handlePathError] returns what the newer one returns, and in the same
    way dereferences a nil [os.FileInfo]; it writes the line of the failure
    symbol and the path, the first of the two lines the newer one writes
    with colours.  For a missing path the older one goes on in the same
    way where the newer one ends the process. *)
Theorem X17_older_handlePathError :
  forall (green red : string -> string) (info : option FileInfo)
         (pathname : string) (err : error),
    fst (Legacy.handlePathError red info pathname)
    = Mgp.printHandler green red true pathname Mgp.ErrorMatchMessage /\
    (os_IsNotExist err = false ->
     snd (Legacy.handlePathError red info pathname)
     = snd (Mgp.handlePathError info pathname err)) /\
    (os_IsNotExist err = true ->
     snd (Mgp.handlePathError info pathname err) = Exits 1 ["Invalid path"] /\
     forall code out, snd (Legacy.handlePathError red info pathname) <> Exits code out).
Proof.
  intros green red info pathname err.
  unfold Legacy.handlePathError, Mgp.handlePathError. repeat split.
  - destruct info as [fi|]; [destruct (IsDir fi)|]; reflexivity.
  - intros H. rewrite H. destruct info as [fi|]; [destruct (IsDir fi)|]; reflexivity.
  - rewrite H. reflexivity.
  - intros code out. destruct info as [fi|]; [destruct (IsDir fi)|]; discriminate.
Qed.

Lemma X17_older_handlePathError_witness :
  snd (Legacy.handlePathError Sample.red (Some (Sample.directory "locked")) "r/locked")
  = snd (Mgp.handlePathError (Some (Sample.directory "locked")) "r/locked"
           (Runs.denied "r/locked")).
Proof.
  apply (proj1 (proj2 (X17_older_handlePathError Sample.green Sample.red
                         (Some (Sample.directory "locked")) "r/locked"
                         (Runs.denied "r/locked")))).
  reflexivity.
Defined.

(** ** The walk as a whole *)

Section Walk.
Local Open Scope list_scope.
Variables green red : string -> string.
Variable Match : string -> string -> bool * option error.
Variable Base : string -> string.
Variable os_Open : string -> File + error.
Variable cfg : Mgp.Config.

Let exec := Mgp.exec green red Match Base os_Open cfg.
Let step := Mgp.step green red Match Base os_Open cfg.
Let cands := Mgp.candidates Match Base (Mgp.exludedDirs cfg) (Mgp.limitMb cfg).
Let visits := Mgp.visits Match Base (Mgp.exludedDirs cfg).
Let quiet := Mgp.quiet Match Base (Mgp.exludedDirs cfg).

Let walked := Mgp.walked.

Lemma exec_app (l1 l2 : list Mgp.Action) (s : Mgp.State) :
  exec (l1 ++ l2) s =
  match exec l1 s with Some s1 => exec l2 s1 | None => None end.
Proof.
  revert s. induction l1 as [|a l1 IH]; intros s; [reflexivity|].
  cbn [app]. unfold exec in *. cbn [Mgp.exec].
  destruct (Mgp.step green red Match Base os_Open cfg a s); [apply IH | reflexivity].
Qed.

(** One call of the walk function on a tree whose walk is quiet. *)
Lemma quiet_visit (s : Mgp.State) (t : Mgp.Tree) (next : option error -> Mgp.Walker) :
  Mgp.status s = Mgp.Running -> Mgp.stopWalk s = false ->
  quiet t = true ->
  List.length (Mgp.ch s) + List.length (cands t) <= Mgp.chCap ->
  exists ret added s',
    Mgp.applyVisit green red
      (Mgp.visit Match Base (Mgp.stopWalk s) (Mgp.exludedDirs cfg) (Mgp.limitMb cfg) t) next s
    = Some s' /\
    Mgp.phase s' = Mgp.Walking (next ret) /\ walked s s' added /\
    match Mgp.descend t ret with
    | Some kids =>
        added = [] /\ cands t = flat_map cands kids /\
        forallb quiet kids = true /\ visits t = S (list_sum (map visits kids))
    | None => added = cands t /\ visits t = 1 /\ Mgp.goesOn t ret = true
    end.
Proof.
  intros Hst Hstop Hq Hcap. rewrite Hstop.
  destruct t as [p e|p info rderr kids]; [discriminate|].
  unfold quiet, visits, cands in *. cbn [Mgp.quiet Mgp.visits Mgp.candidates] in *.
  unfold Mgp.visit, Mgp.walkFn, Mgp.processPath. cbn [Mgp.pathOf Mgp.infoOf Mgp.walkError].
  destruct (IsDir info) eqn:Hd.
  - destruct rderr as [e|]; [discriminate|].
    destruct (Mgp.excluded Match Base true p (Mgp.exludedDirs cfg)) eqn:Hex.
    + exists (Some filepath_SkipDir), [].
      unfold Mgp.applyVisit. cbn. eexists. split; [reflexivity|].
      unfold walked, Mgp.walked. cbn. rewrite ?app_nil_r, ?Hd. repeat split; try assumption; try reflexivity.
    + exists None, [].
      unfold Mgp.applyVisit. cbn. eexists. split; [reflexivity|].
      unfold walked, Mgp.walked. cbn. rewrite ?app_nil_r, ?Hd. cbn in Hq. repeat split; try assumption; try reflexivity.

  - rewrite excluded_not_dir. cbn [negb andb].
    assert (Hdesc : Mgp.descend (Mgp.Node p info rderr kids) None = None).
    { cbn. destruct rderr; rewrite ?Hd; reflexivity. }
    destruct (Size info <? Mgp.limitMb cfg)%Z.
    + exists None, [Mgp.mkEntry p info]. rewrite Hdesc.
      unfold Mgp.applyVisit. cbn [Mgp.enqueued Mgp.printed Mgp.result].
      cbn [List.length] in Hcap.
      destruct (Nat.leb_spec Mgp.chCap (List.length (Mgp.ch s))) as [Hfull|_]; [lia|].
      eexists. split; [reflexivity|].
      unfold walked, Mgp.walked. cbn. rewrite ?app_nil_r. repeat split; try assumption; try reflexivity.
    + exists None, []. rewrite Hdesc.
      unfold Mgp.applyVisit. cbn. eexists. split; [reflexivity|].
      unfold walked, Mgp.walked. cbn. rewrite ?app_nil_r. repeat split; try assumption; try reflexivity.
Qed.

Lemma exec_repeat_add (n m : nat) (s : Mgp.State) :
  exec (repeat Mgp.WalkStep (n + m)) s =
  match exec (repeat Mgp.WalkStep n) s with
  | Some s1 => exec (repeat Mgp.WalkStep m) s1
  | None => None
  end.
Proof. rewrite repeat_app. apply exec_app. Qed.

Lemma walked_trans (s s1 s2 : Mgp.State) (a b : list Mgp.Entry) :
  walked s s1 a -> walked s1 s2 b -> walked s s2 (a ++ b).
Proof.
  unfold walked, Mgp.walked. intros (A1 & A2 & A3 & A4 & A5) (B1 & B2 & B3 & B4 & B5).
  repeat split; try assumption; try congruence.
  rewrite B3, A3. now rewrite app_assoc.
Qed.

(** The walk of the entries [frame] of a directory, down to their last
    descendant, when nothing stops it. *)
Lemma walk_frame :
  forall (n : nat) (frame ts : list Mgp.Tree) (rest : list (list Mgp.Tree)) (s : Mgp.State),
    list_sum (map visits frame) <= n ->
    Mgp.status s = Mgp.Running -> Mgp.stopWalk s = false ->
    Mgp.phase s = Mgp.Walking (Mgp.settle ((frame ++ ts) :: rest)) ->
    forallb quiet frame = true ->
    List.length (Mgp.ch s) + List.length (flat_map cands frame) <= Mgp.chCap ->
    exists s',
      exec (repeat Mgp.WalkStep (list_sum (map visits frame))) s = Some s' /\
      Mgp.phase s' = Mgp.Walking (Mgp.settle (ts :: rest)) /\
      walked s s' (flat_map cands frame).
Proof.
  unfold visits, cands, quiet.
  induction n as [|n IH]; intros frame ts rest s Hn Hst Hstop Hph Hq Hcap.
  - destruct frame as [|t frame].
    + exists s. cbn. split; [reflexivity|]. split; [exact Hph|].
      unfold walked, Mgp.walked. rewrite app_nil_r. repeat split; assumption.
    + exfalso. cbn [map] in Hn. change (list_sum (?a :: ?l)) with (a + list_sum l) in Hn.
      assert (1 <= Mgp.visits Match Base (Mgp.exludedDirs cfg) t).
      { destruct t as [|p info [|] kids]; cbn; try lia.
        - destruct (IsDir info); lia.
        - destruct (IsDir info); [|lia].
          destruct (Mgp.excluded Match Base true p (Mgp.exludedDirs cfg)); lia. }
      lia.
  - destruct frame as [|t frame].
    + exists s. cbn. split; [reflexivity|]. split; [exact Hph|].
      unfold walked, Mgp.walked. rewrite app_nil_r. repeat split; assumption.
    + cbn [map flat_map forallb app] in *.
      change (list_sum (?a :: ?l)) with (a + list_sum l) in *.
      apply andb_true_iff in Hq. destruct Hq as [Hqt Hqf].
      rewrite length_app in Hcap.
      cbn [Mgp.settle] in Hph.
      assert (Hc1 : List.length (Mgp.ch s)
                    + List.length (Mgp.candidates Match Base (Mgp.exludedDirs cfg)
                                     (Mgp.limitMb cfg) t) <= Mgp.chCap) by lia.
      destruct (quiet_visit s t (Mgp.afterEntry t (frame ++ ts) rest) Hst Hstop Hqt Hc1)
        as (ret & added & s1 & Hv & Hph1 & Hw1 & Hcase).
      unfold visits, cands, quiet in Hcase.
      assert (Hstep : step Mgp.WalkStep s = Some s1).
      { unfold step, Mgp.step, Mgp.onWalkStep. rewrite Hst, Hph. exact Hv. }
      destruct Hw1 as (W1 & W2 & W3 & W4 & W5).
      unfold Mgp.afterEntry in Hph1.
      destruct (Mgp.descend t ret) as [kids|] eqn:Hd.
      * destruct Hcase as (-> & Hc & Hqk & Hvis).
        rewrite app_nil_r in W3.
        destruct (IH kids [] ((frame ++ ts) :: rest) s1) as (s2 & He2 & Hph2 & Hw2).
        { lia. } { exact W1. } { exact W2. }
        { rewrite app_nil_r. exact Hph1. } { exact Hqk. }
        { rewrite W3, <- Hc. lia. }
        cbn [Mgp.settle] in Hph2.
        destruct (IH frame ts rest s2) as (s3 & He3 & Hph3 & Hw3).
        { lia. } { apply Hw2. } { apply Hw2. } { exact Hph2. } { exact Hqf. }
        { destruct Hw2 as (_ & _ & E & _). rewrite E, length_app, W3, <- Hc. lia. }
        exists s3. split; [|split; [exact Hph3|]].
        -- rewrite Hvis. change (S ?a + ?b) with (1 + (a + b)).
           rewrite (exec_repeat_add 1). cbn [repeat].
           unfold exec at 1. cbn [Mgp.exec]. fold step. rewrite Hstep. fold exec.
           rewrite exec_repeat_add, He2. exact He3.
        -- rewrite Hc. apply (walked_trans s s2 s3); [|exact Hw3].
           destruct Hw2 as (V1 & V2 & V3 & V4 & V5).
           unfold walked, Mgp.walked. repeat split; try assumption; try congruence.
      * destruct Hcase as (-> & Hvis & Hgo). rewrite Hgo in Hph1.
        destruct (IH frame ts rest s1) as (s3 & He3 & Hph3 & Hw3).
        { lia. } { exact W1. } { exact W2. } { exact Hph1. } { exact Hqf. }
        { rewrite W3, length_app. lia. }
        exists s3. split; [|split; [exact Hph3|]].
        -- rewrite Hvis. rewrite (exec_repeat_add 1). cbn [repeat].
           unfold exec at 1. cbn [Mgp.exec]. fold step. rewrite Hstep. fold exec. exact He3.
        -- apply (walked_trans s s1 s3); [|exact Hw3].
           unfold walked, Mgp.walked. repeat split; assumption.
Qed.


(** X18. A walk that nothing stops and that meets no error sends exactly
    the entries of the files smaller than the limit that lie under no
    excluded directory, each once and in the order of the walk, with one
    call of the walk function for every path it visits; it reports
    nothing and returns without error.  This is the walk taken alone: no
    handler takes an entry meanwhile, so the entries must fit in the
    queue. *)
Theorem X18_quiet_walk_sends_every_candidate_once :
  forall (Compile : string -> Regexp + error)
         (workers : Z) (caseInsensitive colors : bool) (root : Mgp.Tree)
         (pattern : string) (limit : Z) (s0 : Mgp.State),
    Mgp.Run Compile workers caseInsensitive colors root pattern (Mgp.exludedDirs cfg) limit
    = Returns (cfg, s0) ->
    quiet root = true ->
    List.length (cands root) <= 5000 ->
    exists s,
      exec (repeat Mgp.WalkStep (visits root)) s0 = Some s /\
      Mgp.status s = Mgp.Running /\
      Mgp.phase s = Mgp.Walking (Mgp.WalkReturned None) /\
      Mgp.ch s = cands root /\ Mgp.events s = [] /\ Mgp.log s = [].
Proof.
  unfold visits, cands, quiet.
  intros Compile workers ci colors root pattern limit s0 HRun Hq Hcap.
  destruct (Run_start _ _ _ _ _ _ _ _ _ _ HRun) as [Hcfg ->].
  set (s0 := Mgp.mkState Mgp.Running colors (Mgp.compiled Compile ci pattern)
               false true 0 0 false [] false (Z.to_nat workers)
               (Mgp.Walking (Mgp.AtRoot root)) [] []).
  destruct (quiet_visit s0 root (Mgp.afterRoot root) eq_refl eq_refl Hq Hcap)
    as (ret & added & s1 & Hv & Hph1 & Hw1 & Hcase).
  unfold visits, cands, quiet in Hcase.
  assert (Hstep : step Mgp.WalkStep s0 = Some s1) by exact Hv.
  destruct Hw1 as (W1 & W2 & W3 & W4 & W5). cbn in W3, W4, W5.
  unfold Mgp.afterRoot in Hph1.
  destruct (Mgp.descend root ret) as [kids|] eqn:Hd.
  - destruct Hcase as (-> & Hc & Hqk & Hvis).
    destruct (walk_frame (list_sum (map visits kids)) kids [] [] s1) as (s2 & He2 & Hph2 & Hw2).
    { apply Nat.le_refl. } { exact W1. } { exact W2. }
    { rewrite app_nil_r. exact Hph1. } { exact Hqk. }
    { rewrite W3. cbn [List.length]. unfold cands. rewrite <- Hc. exact Hcap. }
    destruct Hw2 as (V1 & V2 & V3 & V4 & V5).
    exists s2. split; [|repeat split].
    + rewrite Hvis. change (S ?a) with (1 + a). rewrite exec_repeat_add. cbn [repeat].
      unfold exec at 1. cbn [Mgp.exec]. fold step. rewrite Hstep. exact He2.
    + exact V1.
    + exact Hph2.
    + rewrite V3, W3, Hc. reflexivity.
    + congruence.
    + congruence.
  - destruct Hcase as (-> & Hvis & Hgo).
    exists s1. split; [|repeat split].
    + rewrite Hvis. cbn [repeat]. unfold exec. cbn [Mgp.exec]. fold step.
      rewrite Hstep. reflexivity.
    + exact W1.
    + rewrite Hph1. destruct ret as [e|]; [|reflexivity].
      cbn in Hgo. apply andb_true_iff in Hgo. destruct Hgo as [-> _]. reflexivity.
    + exact W3.
    + exact W4.
    + exact W5.
Qed.

End Walk.

Lemma X18_quiet_walk_witness :
  exists s,
    Runs.exec Runs.cfg2 [Mgp.WalkStep; Mgp.WalkStep] (Runs.started Runs.treeTwice) = Some s /\
    Mgp.status s = Mgp.Running /\
    Mgp.phase s = Mgp.Walking (Mgp.WalkReturned None) /\
    Mgp.ch s = [Mgp.mkEntry "r/twice.txt" (Sample.regular "twice.txt" 12)] /\
    Mgp.events s = [] /\ Mgp.log s = [].
Proof.
  apply (X18_quiet_walk_sends_every_candidate_once Sample.green Sample.red Sample.Match
           Sample.Base Runs.os_Open Runs.cfg2 Sample.Compile 2%Z false true Runs.treeTwice
           "foo" 104857600%Z (Runs.started Runs.treeTwice) eq_refl eq_refl).
  cbn. lia.
Defined.

(** ** More on the command line *)

Ltac one_flag Hpat :=
  unfold Args.ParseArgs, Parse; cbn [List.length parseLoop];
  match goal with
  | |- context [parseOne ?P ?fs (?a :: ?rest) ?v] =>
      let st := eval cbn in (parseOne P fs (a :: rest) v) in
      change (parseOne P fs (a :: rest) v) with st
  end;
  cbv beta iota;
  rewrite no_dash_is_positional by exact Hpat; reflexivity.

(** X19. Each flag is bound to its own field: given alone before the
    pattern, [-i], [-raw] and [-ctx] set [icase], [nocolor] and
    [matchContext], [-exc] stores its value in [exclude], and all other
    fields keep their defaults; [-v] prints the brief help and exits with
    status 0 even though a pattern and a path are given. *)
Theorem X19_each_flag_sets_its_own_field :
  forall (ParseInt : string -> option Z) (csv pat root : string),
    HasPrefix pat "-" = false ->
    Args.ParseArgs ParseInt ["-i"; pat; root]
    = Returns (Args.mkParameters (Args.mkFlags 100 false true "" 104857600 false) root pat) /\
    Args.ParseArgs ParseInt ["-raw"; pat; root]
    = Returns (Args.mkParameters (Args.mkFlags 100 true false "" 104857600 false) root pat) /\
    Args.ParseArgs ParseInt ["-ctx"; pat; root]
    = Returns (Args.mkParameters (Args.mkFlags 100 false false "" 104857600 true) root pat) /\
    Args.ParseArgs ParseInt ["-exc"; csv; pat; root]
    = Returns (Args.mkParameters (Args.mkFlags 100 false false csv 104857600 false) root pat) /\
    Args.ParseArgs ParseInt ["-v"; pat; root]
    = Exits 0 ["mgp v1.4.1"; "Usage: mgp [options] pattern starting/path";
               "Run mgp -h for more information"].
Proof.
  intros ParseInt csv pat root Hpat. repeat split; one_flag Hpat.
Qed.

Lemma X19_each_flag_witness :
  Args.ParseArgs Atoi ["-raw"; "foo"; "."]
  = Returns (Args.mkParameters (Args.mkFlags 100 true false "" 104857600 false) "." "foo").
Proof.
  apply (proj1 (proj2 (X19_each_flag_sets_its_own_field Atoi "" "foo" "." eq_refl))).
Defined.

(** ** What is reported stays reported *)




(** X21. One iteration of a handler reports at most one match, for the
    entry it received, however many lines of the file match; every other
    iteration reports nothing. *)
Theorem X21_handler_reports_a_file_at_most_once :
  forall green red Match Base (os_Open : string -> File + error)
         (cfg : Mgp.Config) (sel : Mgp.Select) (fuel : nat) (s s' : Mgp.State),
    Mgp.step green red Match Base os_Open cfg (Mgp.Worker sel fuel) s = Some s' ->
    Mgp.events s' = Mgp.events s \/
    (exists e q, sel = Mgp.CaseEntry /\ Mgp.ch s = e :: q /\ Mgp.ch s' = q /\
                 Mgp.events s' = (Mgp.events s ++ [(Mgp.Path e, Mgp.MatchMessage)])%list).
Proof.
  intros green red Match Base os_Open cfg sel fuel s s' H.
  destruct (handler_adds_at_most_one_event _ _ _ _ _ _ _ _ _ _ H) as [E|(e & q & Hch & E)].
  - now left.
  - destruct sel.
    + left. unfold Mgp.step, Mgp.handler in H.
      destruct (Mgp.status s); try discriminate. destruct (Mgp.wg s); [discriminate|].
      destruct (Mgp.closeSignalChan s); inversion H; reflexivity.
    + right. exists e, q. repeat split; try assumption.
      unfold Mgp.step, Mgp.handler in H.
      destruct (Mgp.status s); try discriminate. destruct (Mgp.wg s); [discriminate|].
      rewrite Hch in H.
      destruct (Mgp.handleEntry os_Open fuel (Mgp.r s) e) as [[calls [|]]|];
        inversion H; reflexivity.
    + left. unfold Mgp.step, Mgp.handler in H.
      destruct (Mgp.status s); try discriminate. destruct (Mgp.wg s); [discriminate|].
      destruct (Mgp.closeSignalChan s); [|discriminate].
      destruct (Mgp.ch s); [|discriminate].
      destruct (Mgp.chClosed s); inversion H; reflexivity.
Qed.

Lemma X21_handler_reports_witness :
  exists s',
    Runs.step Runs.cfg2 (Mgp.Worker Mgp.CaseEntry 4)
      (Runs.receiving (Some (Runs.literal "foo")) true (Runs.entry "r/twice.txt" 12))
    = Some s' /\
    (Mgp.events s' = [] \/
     exists e q, Mgp.CaseEntry = Mgp.CaseEntry /\
                 [Runs.entry "r/twice.txt" 12] = e :: q /\ Mgp.ch s' = q /\
                 Mgp.events s' = ([] ++ [(Mgp.Path e, Mgp.MatchMessage)])%list).
Proof.
  eexists. split; [vm_compute; reflexivity|].
  apply (X21_handler_reports_a_file_at_most_once Sample.green Sample.red Sample.Match
           Sample.Base Runs.os_Open Runs.cfg2 Mgp.CaseEntry 4
           (Runs.receiving (Some (Runs.literal "foo")) true (Runs.entry "r/twice.txt" 12))).
  vm_compute. reflexivity.
Defined.
